(** * A remotely controlled headless browser: session store, history tracker,
      command dispatch, live stream, and the search-suggestion endpoint.

    Shallow embedding of [backend/routes/browser.py] and
    [backend/routes/search.py].

    Every [async def] of the source is a value of the free monad [coro]: a
    tree whose nodes read and write the Python-side state ([Get], [Put]) or
    call into the outside world ([Await]): Playwright, the WebSocket, the
    suggestion service, the clock.  The outside world is an [oracle] that
    answers each call with a value or an exception, so a statement about
    every oracle is a statement about every behaviour of the browser engine
    and of the client.

    Two semantics interpret the same trees.  [run] executes one coroutine to
    completion.  [exec_schedule] is the asyncio event loop: tasks switch
    only where the source awaits the outside world, a call completes in one
    step and the task that awaited it is resumed in another.

    Python strings are [string]s over the code points 0..255, integers are
    [Z], a dict is the list of its items in insertion order. *)

From Stdlib Require Import ZArith Lia Ascii String DecimalString.
From stdpp Require Import base option list strings gmap.

Local Open Scope string_scope.
Local Open Scope list_scope.
Local Open Scope Z_scope.

(** ** Python values and primitives *)

Module Py.

(** A value decoded from JSON (and the Python object it becomes).  A number
    is [m * 2^e]: every [int] ([e = 0]) and every finite [float]. *)
#[warnings="-register-all"]
Inductive json : Type :=
| JNull
| JBool (b : bool)
| JNum (m e : Z)
| JStr (s : string)
| JArr (l : list json)
| JObj (items : list (string * json)).

(** [bool(v)] *)
Definition truthy (v : json) : bool :=
  match v with
  | JNull => false
  | JBool b => b
  | JNum m _ => negb (m =? 0)
  | JStr s => negb (String.eqb s "")
  | JArr l => match l with [] => false | _ => true end
  | JObj l => match l with [] => false | _ => true end
  end.

(** [v == s] for a [str] literal [s] *)
Definition eq_str (v : json) (s : string) : bool :=
  match v with JStr t => String.eqb t s | _ => false end.

(** *** dict: insertion-ordered, keys unique *)

Fixpoint dict_get {V} (k : string) (d : list (string * V)) : option V :=
  match d with
  | [] => None
  | (k', v) :: d' => if String.eqb k k' then Some v else dict_get k d'
  end.

(** [d[k] = v]: an existing key keeps its position, a new key goes last. *)
Fixpoint dict_set {V} (k : string) (v : V) (d : list (string * V)) : list (string * V) :=
  match d with
  | [] => [(k, v)]
  | (k', v') :: d' => if String.eqb k k' then (k, v) :: d' else (k', v') :: dict_set k v d'
  end.

(** [del d[k]] (for a key that is present) *)
Definition dict_del {V} (k : string) (d : list (string * V)) : list (string * V) :=
  List.filter (fun kv => negb (String.eqb k kv.1)) d.

Definition dict_keys {V} (d : list (string * V)) : list string := map fst d.

(** *** slices *)

(** A slice bound clamped into [0 .. len], negative bounds counting from
    the end. *)
Definition slice_bound (i len : Z) : Z :=
  if i <? 0 then Z.max 0 (i + len) else Z.min i len.

(** [l[:stop]] *)
Definition list_upto {A} (l : list A) (stop : Z) : list A :=
  take (Z.to_nat (slice_bound stop (Z.of_nat (length l)))) l.

(** [s[start:stop]] *)
Definition str_slice (s : string) (start stop : Z) : string :=
  let len := Z.of_nat (String.length s) in
  let a := slice_bound start len in
  let b := slice_bound stop len in
  if a <? b then String.substring (Z.to_nat a) (Z.to_nat (b - a)) s else "".

(** *** str methods, on strings over the code points 0..255, one per
    character *)

(** [c.isspace()] on that range *)
Definition is_space (c : ascii) : bool :=
  let n := Z.of_N (N_of_ascii c) in
  ((9 <=? n) && (n <=? 13)) || ((28 <=? n) && (n <=? 32)) || (n =? 133) || (n =? 160).

Fixpoint lstrip (s : string) : string :=
  match s with
  | String c s' => if is_space c then lstrip s' else s
  | EmptyString => EmptyString
  end.

Fixpoint rstrip (s : string) : string :=
  match s with
  | String c s' =>
      match rstrip s' with
      | EmptyString => if is_space c then EmptyString else String c EmptyString
      | r => String c r
      end
  | EmptyString => EmptyString
  end.

Definition strip (s : string) : string := rstrip (lstrip s).

Definition startswith_char (s : string) (c : ascii) : bool :=
  match s with String c' _ => Ascii.eqb c' c | EmptyString => false end.

(** [s.find(c)] for a one-character [c]: first index, or -1 *)
Fixpoint find_char (s : string) (c : ascii) : Z :=
  match s with
  | EmptyString => -1
  | String c' s' =>
      if Ascii.eqb c' c then 0
      else let i := find_char s' c in if i <? 0 then -1 else i + 1
  end.

(** [s.rfind(c)]: last index, or -1 *)
Fixpoint rfind_char (s : string) (c : ascii) : Z :=
  match s with
  | EmptyString => -1
  | String c' s' =>
      let i := rfind_char s' c in
      if 0 <=? i then i + 1 else if Ascii.eqb c' c then 0 else -1
  end.

(** [sep.join(parts)] *)
Definition join (sep : string) (parts : list string) : string := String.concat sep parts.

(** [str(n)] for an [int] *)
Definition str_of_int (n : Z) : string := NilZero.string_of_int (Z.to_int n).

(** *** base64.b64encode(bytes).decode('utf-8') *)

Definition b64_alphabet : string :=
  "ABCDEFGHIJKLMNOPQRSTUVWXYZabcdefghijklmnopqrstuvwxyz0123456789+/".

Definition b64_char (n : Z) : ascii :=
  match String.get (Z.to_nat n) b64_alphabet with Some c => c | None => "="%char end.

Definition byte_val (c : ascii) : Z := Z.of_N (N_of_ascii c).

Fixpoint b64encode (bytes : string) : string :=
  match bytes with
  | EmptyString => EmptyString
  | String a EmptyString =>
      let n := byte_val a * 65536 in
      String (b64_char (n / 262144)) (String (b64_char ((n / 4096) mod 64)) "==")
  | String a (String b EmptyString) =>
      let n := byte_val a * 65536 + byte_val b * 256 in
      String (b64_char (n / 262144)) (String (b64_char ((n / 4096) mod 64))
        (String (b64_char ((n / 64) mod 64)) "="))
  | String a (String b (String c rest)) =>
      let n := byte_val a * 65536 + byte_val b * 256 + byte_val c in
      String (b64_char (n / 262144)) (String (b64_char ((n / 4096) mod 64))
        (String (b64_char ((n / 64) mod 64)) (String (b64_char (n mod 64)) (b64encode rest))))
  end.

(** *** exceptions *)

Inductive exn_class : Type :=
| Exception_ (name : string)     (* any other subclass of [Exception] *)
| HTTPException (status_code : Z)
| WebSocketDisconnect
| CancelledError.                (* derives from [BaseException] only *)

(** A raised exception: its class and [str(e)] (the [detail] of an
    [HTTPException]). *)
Record exn : Type := mkExn { exn_cls : exn_class; exn_str : string }.

(** [isinstance(e, Exception)] *)
Definition is_Exception (e : exn) : bool :=
  match exn_cls e with CancelledError => false | _ => true end.

Definition is_WebSocketDisconnect (e : exn) : bool :=
  match exn_cls e with WebSocketDisconnect => true | _ => false end.

Definition is_CancelledError (e : exn) : bool :=
  match exn_cls e with CancelledError => true | _ => false end.

Inductive outcome (A : Type) : Type :=
| Ok (a : A)
| Exc (e : exn).
Arguments Ok {A} a.
Arguments Exc {A} e.

Definition is_ok {A} (r : outcome A) : bool :=
  match r with Ok _ => true | Exc _ => false end.

End Py.

Import Py.


(** ** The process state the handlers share *)

Module Model.

(** Objects of the browser engine (playwright, browser, context, page) and
    WebSocket connections are known by an opaque handle. *)
Definition handle := nat.

(** Address of a session dict on the Python heap. *)
Definition loc := nat.

(** The dict [create_session] stores per session.  [history] is a Python
    list: the REST route appends validated strings, the WebSocket route
    whatever value the frame carried. *)
Record session : Type := mkSession {
  context : handle;
  page : handle;
  created_at : Z;
  history : list json;
  history_index : Z
}.

Definition set_history (h : list json) (x : session) : session :=
  mkSession (context x) (page x) (created_at x) h (history_index x).

Definition set_history_index (i : Z) (x : session) : session :=
  mkSession (context x) (page x) (created_at x) (history x) i.

(** The fields of the [BrowserSessionManager] singleton ([_lock] is
    created by [__init__] and never acquired or read afterwards), and the
    session dicts it refers to.  A handler that looked a session up holds
    the dict itself, so the dict outlives its entry in [sessions]. *)
Record state : Type := mkState {
  sessions : list (string * loc);
  playwright : option handle;
  browser : option handle;
  heap : list session
}.

Definition set_sessions (d : list (string * loc)) (s : state) : state :=
  mkState d (playwright s) (browser s) (heap s).

Definition set_playwright (p : option handle) (s : state) : state :=
  mkState (sessions s) p (browser s) (heap s).

Definition set_browser (b : option handle) (s : state) : state :=
  mkState (sessions s) (playwright s) b (heap s).

Definition set_heap (h : list session) (s : state) : state :=
  mkState (sessions s) (playwright s) (browser s) h.

(** [BrowserSessionManager.__init__] *)
Definition init_state : state := mkState [] None None [].

End Model.

Import Model.

(** ** Coroutines *)

Module Async.

(** [LLMConfig(...)]; the temperature is [7 * 10^-1]. *)
Record LLMConfig : Type := mkLLMConfig {
  model_name : string;
  api_key : string;
  temperature : Z * Z;
  max_output_tokens : Z
}.

(** [Message(role=..., content=...)] *)
Record Message : Type := mkMessage { role : string; content : string }.

(** Calls that leave the modelled code.  [Chat] stands for
    [(await chat(config=..., messages=...)).message]. *)
Inductive op : Type :=
| AsyncPlaywrightStart
| ChromiumLaunch (pw : handle) (headless : bool) (args : list string)
| BrowserNewContext (b : handle) (width height : Z) (user_agent : string)
| ContextNewPage (c : handle)
| ContextClose (c : handle)
| BrowserClose (b : handle)
| PlaywrightStop (pw : handle)
| PageGoto (p : handle) (url : json) (wait_until : string) (timeout : Z)
| PageUrl (p : handle)
| PageTitle (p : handle)
| PageGoBack (p : handle)
| PageGoForward (p : handle)
| PageReload (p : handle)
| PageScreenshot (p : handle) (type : string) (quality : Z)
| MouseClick (p : handle) (x y button : json)
| KeyboardType (p : handle) (text : json)
| KeyboardPress (p : handle) (key : json)
| MouseWheel (p : handle) (delta_x delta_y : json)
| WsAccept (ws : handle)
| WsClose (ws : handle) (code : Z) (reason : string)
| WsSendJson (ws : handle) (msg : json)
| WsReceiveJson (ws : handle)
| Sleep (milliseconds : Z)
| Uuid4
| UtcNow
| ImportChat
| Chat (config : LLMConfig) (messages : list Message).

(** What a call returns when it does not raise. *)
Definition reply (o : op) : Type :=
  match o with
  | AsyncPlaywrightStart | ChromiumLaunch _ _ _ | BrowserNewContext _ _ _ _
  | ContextNewPage _ => handle
  | PageUrl _ | PageTitle _ | PageScreenshot _ _ _ | Uuid4 | Chat _ _ => string
  | WsReceiveJson _ => json
  | UtcNow => Z
  | _ => unit
  end.

(** Calls that are awaited on the outside world suspend the coroutine;
    a property read, [uuid4()], [utcnow()] and an [import] do not. *)
Definition suspends (o : op) : bool :=
  match o with
  | PageUrl _ | Uuid4 | UtcNow | ImportChat => false
  | _ => true
  end.

Inductive coro (R : Type) : Type :=
| Ret (r : R)
| Raise (e : exn)
| Get (k : state -> coro R)
| Put (s : state) (k : coro R)
| Await (o : op) (k : outcome (reply o) -> coro R).
Arguments Ret {R} r.
Arguments Raise {R} e.
Arguments Get {R} k.
Arguments Put {R} s k.
Arguments Await {R} o k.

Fixpoint bind {A B} (c : coro A) (f : A -> coro B) : coro B :=
  match c with
  | Ret a => f a
  | Raise e => Raise e
  | Get k => Get (fun s => bind (k s) f)
  | Put s k => Put s (bind k f)
  | Await o k => Await o (fun r => bind (k r) f)
  end.

(** [try: c  except BaseException as e: h e] *)
Fixpoint catch {A} (c : coro A) (h : exn -> coro A) : coro A :=
  match c with
  | Ret a => Ret a
  | Raise e => h e
  | Get k => Get (fun s => catch (k s) h)
  | Put s k => Put s (catch k h)
  | Await o k => Await o (fun r => catch (k r) h)
  end.

(** [try: c  except Exception as e: h e] *)
Definition except_Exception {A} (c : coro A) (h : exn -> coro A) : coro A :=
  catch c (fun e => if is_Exception e then h e else Raise e).

(** The outcome of [c], as a value. *)
Definition attempt {A} (c : coro A) : coro (outcome A) :=
  catch (bind c (fun a => Ret (Ok a))) (fun e => Ret (Exc e)).

(** A call whose exception propagates. *)
Definition call (o : op) : coro (reply o) :=
  Await o (fun r => match r with Ok a => Ret a | Exc e => Raise e end).

Definition get : coro state := Get (fun s => Ret s).
Definition modify (f : state -> state) : coro unit := Get (fun s => Put (f s) (Ret tt)).

(** [for x in xs: body x] *)
Fixpoint for_each {A} (xs : list A) (body : A -> coro unit) : coro unit :=
  match xs with
  | [] => Ret tt
  | x :: xs' => bind (body x) (fun _ => for_each xs' body)
  end.

(** *** Semantics *)

(** One completed call, and whether it returned or raised. *)
Record event : Type := Ev { ev_op : op; ev_ok : bool }.

(** The outside world answers the [n]-th call. *)
Definition oracle : Type := nat -> forall o : op, outcome (reply o).

Record world : Type := mkWorld {
  st : state;
  log : list event;   (* oldest first *)
  clock : nat
}.

Definition set_st (s : state) (w : world) : world := mkWorld s (log w) (clock w).

Definition record (o : op) (ok : bool) (w : world) : world :=
  mkWorld (st w) (log w ++ [Ev o ok]) (S (clock w)).

(** Running one coroutine to completion, nothing else scheduled in
    between. *)
Fixpoint run {R} (env : oracle) (c : coro R) (w : world) : outcome R * world :=
  match c with
  | Ret r => (Ok r, w)
  | Raise e => (Exc e, w)
  | Get k => run env (k (st w)) w
  | Put s k => run env k (set_st s w)
  | Await o k => let r := env (clock w) o in run env (k r) (record o (is_ok r) w)
  end.

(** A task of the event loop. *)
Inductive task (R : Type) : Type :=
| Runnable (c : coro R)
| Waiting (o : op) (k : outcome (reply o) -> coro R)
| Finished (r : outcome R).
Arguments Runnable {R} c.
Arguments Waiting {R} o k.
Arguments Finished {R} r.

(** A task runs until it awaits the outside world or ends. *)
Fixpoint advance {R} (env : oracle) (c : coro R) (w : world) : task R * world :=
  match c with
  | Ret r => (Finished (Ok r), w)
  | Raise e => (Finished (Exc e), w)
  | Get k => advance env (k (st w)) w
  | Put s k => advance env k (set_st s w)
  | Await o k =>
      if suspends o then (Waiting o k, w)
      else let r := env (clock w) o in advance env (k r) (record o (is_ok r) w)
  end.

(** The event loop either resumes a runnable task, or the outside world
    completes the call a task waits for, which makes the task runnable. *)
Inductive action : Type :=
| Resume (i : nat)
| Complete (i : nat).

Definition step {R} (env : oracle) (a : action) (pw : list (task R) * world)
  : list (task R) * world :=
  let '(pool, w) := pw in
  match a with
  | Resume i =>
      match pool !! i with
      | Some (Runnable c) => let '(t, w') := advance env c w in (<[i := t]> pool, w')
      | _ => pw
      end
  | Complete i =>
      match pool !! i with
      | Some (Waiting o k) =>
          let r := env (clock w) o in
          (<[i := Runnable (k r)]> pool, record o (is_ok r) w)
      | _ => pw
      end
  end.

Definition exec_schedule {R} (env : oracle) (schedule : list action)
    (pw : list (task R) * world) : list (task R) * world :=
  fold_left (fun acc a => step env a acc) schedule pw.

(** The schedule on which a task runs alone: every call is completed and
    the task resumed at once. *)
Fixpoint solo {R} (env : oracle) (c : coro R) (w : world) : list action :=
  match c with
  | Ret _ | Raise _ => []
  | Get k => solo env (k (st w)) w
  | Put s k => solo env k (set_st s w)
  | Await o k =>
      let r := env (clock w) o in
      (if suspends o then [Complete 0%nat; Resume 0%nat] else [])
        ++ solo env (k r) (record o (is_ok r) w)
  end.

End Async.

Import Async.

Declare Scope coro_scope.
Delimit Scope coro_scope with coro.
Notation "x <- c ;; k" := (bind c (fun x => k))
  (at level 20, c at level 99, k at level 200, only parsing) : coro_scope.
Notation "c ;; k" := (bind c (fun _ => k))
  (at level 100, k at level 200, only parsing, right associativity) : coro_scope.
Local Open Scope coro_scope.

(** ** backend/routes/browser.py *)

Module Browser.

(** Reading and writing a session dict through its address.  Every address
    found in [sessions] or held by a handler was allocated by
    [create_session], so the lookup succeeds; the other branch only keeps
    the function total. *)
Definition deref (l : loc) : coro session :=
  self <- get ;;
  match heap self !! l with
  | Some x => Ret x
  | None => Raise (mkExn (Exception_ "ReferenceError") "no such object")
  end.

Definition update (l : loc) (f : session -> session) : coro unit :=
  x <- deref l ;;
  modify (fun self => set_heap (<[l := f x]> (heap self)) self).

Module BrowserSessionManager.

Definition launch_args : list string :=
  [ "--no-sandbox"; "--disable-setuid-sandbox"; "--disable-dev-shm-usage";
    "--disable-gpu"; "--disable-web-security";
    "--disable-features=IsolateOrigins,site-per-process" ].

Definition user_agent : string :=
  "Mozilla/5.0 (Windows NT 10.0; Win64; x64) AppleWebKit/537.36 (KHTML, like Gecko) Chrome/120.0.0.0 Safari/537.36".

Definition NoneType_has_no_attribute (name : string) : exn :=
  mkExn (Exception_ "AttributeError")
        ("'NoneType' object has no attribute '" +:+ name +:+ "'").

Definition initialize : coro unit :=
  self <- get ;;
  match playwright self with
  | None =>
      pw <- call AsyncPlaywrightStart ;;
      modify (set_playwright (Some pw)) ;;
      self <- get ;;
      match playwright self with
      | Some pw' =>
          b <- call (ChromiumLaunch pw' true launch_args) ;;
          modify (set_browser (Some b))
      | None => Raise (NoneType_has_no_attribute "chromium")
      end
  | Some _ => Ret tt
  end.

Definition create_session : coro string :=
  initialize ;;
  session_id <- call Uuid4 ;;
  self <- get ;;
  match browser self with
  | Some b =>
      context <- call (BrowserNewContext b 1280 720 user_agent) ;;
      page <- call (ContextNewPage context) ;;
      now <- call UtcNow ;;
      modify (fun self =>
        set_sessions (dict_set session_id (length (heap self)) (sessions self))
          (set_heap (heap self ++ [mkSession context page now [] (-1)]) self)) ;;
      Ret session_id
  | None => Raise (NoneType_has_no_attribute "new_context")
  end.

Definition get_session (session_id : string) : coro (option loc) :=
  self <- get ;;
  Ret (dict_get session_id (sessions self)).

Definition close_session (session_id : string) : coro unit :=
  self <- get ;;
  match dict_get session_id (sessions self) with
  | Some l =>
      session <- deref l ;;
      call (ContextClose (context session)) ;;
      self <- get ;;
      match dict_get session_id (sessions self) with
      | Some _ => modify (fun self => set_sessions (dict_del session_id (sessions self)) self)
      | None => Raise (mkExn (Exception_ "KeyError") ("'" +:+ session_id +:+ "'"))
      end
  | None => Ret tt
  end.

Definition cleanup : coro unit :=
  self <- get ;;
  for_each (dict_keys (sessions self)) close_session ;;
  self <- get ;;
  match browser self with Some b => call (BrowserClose b) | None => Ret tt end ;;
  self <- get ;;
  match playwright self with Some pw => call (PlaywrightStop pw) | None => Ret tt end.

End BrowserSessionManager.

(** *** Request and response models *)

Record CreateSessionResponse : Type := mkCreateSessionResponse {
  csr_session_id : string;
  csr_created_at : Z
}.

Record NavigateRequest : Type := mkNavigateRequest { url : string }.

(** [x] and [y] are floats [m * 2^e]. *)
Record ClickRequest : Type := mkClickRequest {
  x : Z * Z;
  y : Z * Z;
  button : string
}.

Record TypeRequest : Type := mkTypeRequest { text : string }.

Record KeyPressRequest : Type := mkKeyPressRequest {
  key : string;
  modifiers : option (gmap string bool)
}.

Record ScrollRequest : Type := mkScrollRequest {
  delta_x : Z * Z;
  delta_y : Z * Z
}.

Record SessionStatusResponse : Type := mkSessionStatusResponse {
  ssr_session_id : string;
  current_url : string;
  title : string;
  can_go_back : bool;
  can_go_forward : bool
}.

Record ScreenshotResponse : Type := mkScreenshotResponse {
  screenshot : string;
  sr_url : string;
  sr_title : string
}.

Definition http_error (status_code : Z) (detail : string) : exn :=
  mkExn (HTTPException status_code) detail.

Definition num (q : Z * Z) : json := JNum q.1 q.2.

(** The opening shared by every route keyed by a session id:
    [session = await session_manager.get_session(session_id)],
    [if not session: raise HTTPException(404, ...)]. *)
Definition require_session (session_id : string) : coro loc :=
  session <- BrowserSessionManager.get_session session_id ;;
  match session with
  | Some l => Ret l
  | None => Raise (http_error 404 "Session not found")
  end.

(** *** Endpoints *)

Definition create_session : coro CreateSessionResponse :=
  except_Exception
    (session_id <- BrowserSessionManager.create_session ;;
     session <- BrowserSessionManager.get_session session_id ;;
     match session with
     | Some l =>
         s <- deref l ;;
         Ret (mkCreateSessionResponse session_id (created_at s))
     | None =>
         Raise (mkExn (Exception_ "TypeError") "'NoneType' object is not subscriptable")
     end)
    (fun e => Raise (http_error 500 (exn_str e))).

Definition close_session (session_id : string) : coro json :=
  _ <- require_session session_id ;;
  BrowserSessionManager.close_session session_id ;;
  Ret (JObj [("status", JStr "closed")]).

(** [history] and [history_index] are bound before the page is asked for
    its URL and title, and compared afterwards. *)
Definition get_session_status (session_id : string) : coro SessionStatusResponse :=
  session <- require_session session_id ;;
  s <- deref session ;;
  let page := page s in
  let history := history s in
  let history_index := history_index s in
  u <- call (PageUrl page) ;;
  t <- call (PageTitle page) ;;
  Ret (mkSessionStatusResponse session_id u t
         (history_index >? 0)
         (history_index <? Z.of_nat (length history) - 1)).

Definition navigate (session_id : string) (request : NavigateRequest) : coro json :=
  session <- require_session session_id ;;
  s <- deref session ;;
  let page := page s in
  except_Exception
    (call (PageGoto page (JStr (url request)) "domcontentloaded" 30000) ;;
     update session (fun s => set_history (list_upto (history s) (history_index s + 1)) s) ;;
     update session (fun s => set_history (history s ++ [JStr (url request)]) s) ;;
     update session (fun s => set_history_index (Z.of_nat (length (history s)) - 1) s) ;;
     u <- call (PageUrl page) ;;
     t <- call (PageTitle page) ;;
     Ret (JObj [("status", JStr "navigated"); ("url", JStr u); ("title", JStr t)]))
    (fun e => Raise (http_error 500 (exn_str e))).

Definition go_back (session_id : string) : coro json :=
  session <- require_session session_id ;;
  s <- deref session ;;
  if history_index s >? 0 then
    update session (fun s => set_history_index (history_index s - 1) s) ;;
    s <- deref session ;;
    let page := page s in
    call (PageGoBack page) ;;
    u <- call (PageUrl page) ;;
    Ret (JObj [("status", JStr "success"); ("url", JStr u)])
  else Ret (JObj [("status", JStr "no_history")]).

Definition go_forward (session_id : string) : coro json :=
  session <- require_session session_id ;;
  s <- deref session ;;
  if history_index s <? Z.of_nat (length (history s)) - 1 then
    update session (fun s => set_history_index (history_index s + 1) s) ;;
    s <- deref session ;;
    let page := page s in
    call (PageGoForward page) ;;
    u <- call (PageUrl page) ;;
    Ret (JObj [("status", JStr "success"); ("url", JStr u)])
  else Ret (JObj [("status", JStr "no_forward_history")]).

Definition refresh (session_id : string) : coro json :=
  session <- require_session session_id ;;
  s <- deref session ;;
  let page := page s in
  call (PageReload page) ;;
  u <- call (PageUrl page) ;;
  Ret (JObj [("status", JStr "refreshed"); ("url", JStr u)]).

Definition data_uri (screenshot_bytes : string) : string :=
  "data:image/jpeg;base64," +:+ b64encode screenshot_bytes.

Definition get_screenshot (session_id : string) : coro ScreenshotResponse :=
  session <- require_session session_id ;;
  s <- deref session ;;
  let page := page s in
  except_Exception
    (screenshot_bytes <- call (PageScreenshot page "jpeg" 60) ;;
     u <- call (PageUrl page) ;;
     t <- call (PageTitle page) ;;
     Ret (mkScreenshotResponse (data_uri screenshot_bytes) u t))
    (fun e => Raise (http_error 500 (exn_str e))).

Definition click (session_id : string) (request : ClickRequest) : coro json :=
  session <- require_session session_id ;;
  s <- deref session ;;
  let page := page s in
  call (MouseClick page (num (x request)) (num (y request)) (JStr (button request))) ;;
  Ret (JObj [("status", JStr "clicked")]).

Definition type_text (session_id : string) (request : TypeRequest) : coro json :=
  session <- require_session session_id ;;
  s <- deref session ;;
  let page := page s in
  call (KeyboardType page (JStr (text request))) ;;
  Ret (JObj [("status", JStr "typed")]).

(** [modifiers.get(name)] as a condition *)
Definition held (modifiers : gmap string bool) (name : string) : bool :=
  match modifiers !! name with Some b => b | None => false end.

Definition keypress (session_id : string) (request : KeyPressRequest) : coro json :=
  session <- require_session session_id ;;
  s <- deref session ;;
  let page := page s in
  let modifiers := default ∅ (modifiers request) in
  let keys := [] in
  let keys := if held modifiers "ctrl" then keys ++ ["Control"] else keys in
  let keys := if held modifiers "alt" then keys ++ ["Alt"] else keys in
  let keys := if held modifiers "shift" then keys ++ ["Shift"] else keys in
  let keys := if held modifiers "meta" then keys ++ ["Meta"] else keys in
  let keys := keys ++ [key request] in
  call (KeyboardPress page (JStr (join "+" keys))) ;;
  Ret (JObj [("status", JStr "pressed")]).

Definition scroll (session_id : string) (request : ScrollRequest) : coro json :=
  session <- require_session session_id ;;
  s <- deref session ;;
  let page := page s in
  call (MouseWheel page (num (delta_x request)) (num (delta_y request))) ;;
  Ret (JObj [("status", JStr "scrolled")]).

(** *** The WebSocket route *)

(** [data.get(name, default)]; only a JSON object has [get]. *)
Definition data_get (data : json) (name : string) (default : json) : coro json :=
  match data with
  | JObj items => Ret (match dict_get name items with Some v => v | None => default end)
  | _ => Raise (mkExn (Exception_ "AttributeError") "object has no attribute 'get'")
  end.

(** The body of [while True:] after [data = await websocket.receive_json()]:
    one inbound frame on a connection that holds [session] and [page]. *)
Definition dispatch (websocket : handle) (session : loc) (page : handle) (data : json)
  : coro unit :=
  event_type <- data_get data "type" JNull ;;
  if eq_str event_type "navigate" then
    url <- data_get data "url" JNull ;;
    if truthy url then
      except_Exception
        (call (PageGoto page url "domcontentloaded" 30000) ;;
         update session (fun s => set_history (history s ++ [url]) s) ;;
         update session (fun s => set_history_index (Z.of_nat (length (history s)) - 1) s))
        (fun e => call (WsSendJson websocket
                    (JObj [("type", JStr "error"); ("message", JStr (exn_str e))])))
    else Ret tt
  else if eq_str event_type "click" then
    x <- data_get data "x" (JNum 0 0) ;;
    y <- data_get data "y" (JNum 0 0) ;;
    button <- data_get data "button" (JStr "left") ;;
    call (MouseClick page x y button)
  else if eq_str event_type "type" then
    text <- data_get data "text" (JStr "") ;;
    call (KeyboardType page text)
  else if eq_str event_type "keypress" then
    key <- data_get data "key" (JStr "") ;;
    call (KeyboardPress page key)
  else if eq_str event_type "scroll" then
    delta_x <- data_get data "deltaX" (JNum 0 0) ;;
    delta_y <- data_get data "deltaY" (JNum 0 0) ;;
    call (MouseWheel page delta_x delta_y)
  else if eq_str event_type "back" then
    s <- deref session ;;
    if history_index s >? 0 then
      update session (fun s => set_history_index (history_index s - 1) s) ;;
      call (PageGoBack page)
    else Ret tt
  else if eq_str event_type "forward" then
    s <- deref session ;;
    if history_index s <? Z.of_nat (length (history s)) - 1 then
      update session (fun s => set_history_index (history_index s + 1) s) ;;
      call (PageGoForward page)
    else Ret tt
  else if eq_str event_type "refresh" then
    call (PageReload page)
  else Ret tt.

(** One iteration of [while streaming:] in [stream_screenshots]. *)
Definition stream_iteration (websocket : handle) (page : handle) : coro unit :=
  screenshot_bytes <- call (PageScreenshot page "jpeg" 40) ;;
  u <- call (PageUrl page) ;;
  t <- call (PageTitle page) ;;
  call (WsSendJson websocket
          (JObj [("type", JStr "screenshot"); ("data", JStr (data_uri screenshot_bytes));
                 ("url", JStr u); ("title", JStr t)])) ;;
  call (Sleep 100).

(** The handler runs two tasks on one connection, the screenshot producer
    and the command consumer.  A script fixes the order in which they get
    their turns; a turn is one iteration of the task's loop. *)
Inductive turn : Type := Producer | Consumer.

(** How far the handler got: it returned, or the script ended with the
    connection still open. *)
Inductive progress : Type := Returned | Open.

(** The streaming phase.  [streaming] is false once the producer left its
    loop (an [Exception] breaks it, a cancellation ends the task).  When
    [receive_json] or a command raises, the [finally] block stops and
    awaits the producer; a [WebSocketDisconnect] is then swallowed and
    anything else propagates. *)
Fixpoint stream (script : list turn) (websocket : handle) (session : loc) (page : handle)
    (streaming : bool) : coro progress :=
  match script with
  | [] => Ret Open
  | Producer :: script' =>
      if streaming then
        r <- attempt (stream_iteration websocket page) ;;
        stream script' websocket session page (is_ok r)
      else stream script' websocket session page false
  | Consumer :: script' =>
      r <- attempt (data <- call (WsReceiveJson websocket) ;;
                    dispatch websocket session page data) ;;
      match r with
      | Ok _ => stream script' websocket session page streaming
      | Exc e => if is_WebSocketDisconnect e then Ret Returned else Raise e
      end
  end.

Definition websocket_endpoint (websocket : handle) (session_id : string)
    (script : list turn) : coro progress :=
  call (WsAccept websocket) ;;
  session <- BrowserSessionManager.get_session session_id ;;
  match session with
  | None =>
      call (WsClose websocket 4004 "Session not found") ;;
      Ret Returned
  | Some session =>
      s <- deref session ;;
      let page := page s in
      stream script websocket session page true
  end.

(** [cleanup_sessions] *)
Definition cleanup_sessions : coro unit := BrowserSessionManager.cleanup.

End Browser.

(** ** backend/routes/search.py *)

Module Search.

Record SuggestionsResponse : Type := mkSuggestionsResponse {
  suggestions : list string;
  query : string
}.

Definition system_prompt : string :=
  "You are a search suggestion assistant. Given a partial search query, provide relevant autocomplete suggestions. Return ONLY a JSON array of strings with suggested completions. No explanations, just the array.".

Definition double_quote : string := String "034"%char EmptyString.

Definition type_error (msg : string) : exn := mkExn (Exception_ "TypeError") msg.

(** [v[:limit]] on a decoded value.  (Slicing a dict is a [TypeError] up to
    Python 3.11 and a [KeyError] from 3.12 on.) *)
Definition upto (v : json) (limit : Z) : coro json :=
  match v with
  | JArr l => Ret (JArr (list_upto l limit))
  | JStr s => Ret (JStr (str_slice s 0 limit))
  | JObj _ => Raise (type_error "unhashable type: 'slice'")
  | _ => Raise (type_error "object is not subscriptable")
  end.

Section Library.

(** [json.loads], [None] standing for a [JSONDecodeError]. *)
Variable json_loads : string -> option json.

(** What the response model makes of a list element that is not a
    [str]: the string it is coerced to, or [None] when it is rejected.
    (pydantic 1 coerces numbers, pydantic 2 rejects them.) *)
Variable coerce : json -> option string.

(** [os.environ.get('EMERGENT_LLM_KEY', '')], read once at import. *)
Variable EMERGENT_API_KEY : string.

Definition loads (s : string) : coro json :=
  match json_loads s with
  | Some v => Ret v
  | None => Raise (mkExn (Exception_ "JSONDecodeError") "Expecting value")
  end.

Definition get_ai_suggestions (query : string) (limit : Z) : coro json :=
  call ImportChat ;;
  except_Exception
    (let config := mkLLMConfig "gpt-4o-mini" EMERGENT_API_KEY (7, -1) 200 in
     let messages :=
       [ mkMessage "system" system_prompt;
         mkMessage "user"
           ("Provide " +:+ str_of_int limit +:+ " search suggestions for: "
            +:+ double_quote +:+ query +:+ double_quote) ] in
     response <- call (Chat config messages) ;;
     let content := strip response in
     suggestions <-
       (if startswith_char content "[" then loads content
        else
          let start := find_char content "[" in
          let end_ := rfind_char content "]" + 1 in
          if (start >=? 0) && (end_ >? start)
          then loads (str_slice content start end_)
          else Ret (JArr [JStr query])) ;;
     upto suggestions limit)
    (fun e => Raise e).

Definition validation_error : exn :=
  mkExn (Exception_ "ValidationError") "validation error for SuggestionsResponse".

(** One element of a [List[str]] field. *)
Definition str_element (v : json) : option string :=
  match v with JStr s => Some s | _ => coerce v end.

(** [SuggestionsResponse(suggestions=v, query=q)] *)
Definition SuggestionsResponse_ (v : json) (q : string) : coro SuggestionsResponse :=
  match v with
  | JArr l =>
      match mapM str_element l with
      | Some ss => Ret (mkSuggestionsResponse ss q)
      | None => Raise validation_error
      end
  | _ => Raise validation_error
  end.

Definition get_search_suggestions (q : string) (limit : Z) : coro SuggestionsResponse :=
  if String.eqb q "" || (Z.of_nat (String.length (strip q)) <? 2) then
    Ret (mkSuggestionsResponse [] q)
  else
    except_Exception
      (suggestions <- get_ai_suggestions q limit ;;
       SuggestionsResponse_ suggestions q)
      (fun e =>
         let fallback :=
           [ q +:+ " tutorial"; q +:+ " example"; q +:+ " documentation";
             "how to " +:+ q; q +:+ " guide" ] in
         Ret (mkSuggestionsResponse (list_upto fallback limit) q)).

End Library.

End Search.

(** ** Scenarios: concrete outside worlds *)

Module Scenario.

(** Every call returns; the [n]-th call that creates an engine object
    names it [n]. *)
Definition answer (n : nat) (o : op) : reply o :=
  match o as o' return reply o' with
  | AsyncPlaywrightStart => n
  | ChromiumLaunch _ _ _ => n
  | BrowserNewContext _ _ _ _ => n
  | ContextNewPage _ => n
  | ContextClose _ => tt
  | BrowserClose _ => tt
  | PlaywrightStop _ => tt
  | PageGoto _ _ _ _ => tt
  | PageUrl _ => "about:blank"
  | PageTitle _ => ""
  | PageGoBack _ => tt
  | PageGoForward _ => tt
  | PageReload _ => tt
  | PageScreenshot _ _ _ => ""
  | MouseClick _ _ _ _ => tt
  | KeyboardType _ _ => tt
  | KeyboardPress _ _ => tt
  | MouseWheel _ _ _ => tt
  | WsAccept _ => tt
  | WsClose _ _ _ => tt
  | WsSendJson _ _ => tt
  | WsReceiveJson _ => JNull
  | Sleep _ => tt
  | Uuid4 => "00000000-0000-4000-8000-000000000000"
  | UtcNow => 0
  | ImportChat => tt
  | Chat _ _ => "[]"
  end.

Definition calm : oracle := fun n o => Ok (answer n o).

(** The calls selected by [p] raise [e], the others are left to [env]. *)
Definition failing (p : op -> bool) (e : exn) (env : oracle) : oracle :=
  fun n o => if p o then Exc e else env n o.

(** The client sends [frame] whenever the handler reads. *)
Definition sending (frame : json) (env : oracle) : oracle :=
  fun n o =>
    match o as o' return outcome (reply o') -> outcome (reply o') with
    | WsReceiveJson _ => fun _ => Ok frame
    | _ => fun r => r
    end (env n o).

(** The suggestion service answers [message]. *)
Definition chatting (message : string) (env : oracle) : oracle :=
  fun n o =>
    match o as o' return outcome (reply o') -> outcome (reply o') with
    | Chat _ _ => fun _ => Ok message
    | _ => fun r => r
    end (env n o).

Definition is_goto (o : op) : bool := match o with PageGoto _ _ _ _ => true | _ => false end.
Definition is_title (o : op) : bool := match o with PageTitle _ => true | _ => false end.
Definition is_chat (o : op) : bool := match o with Chat _ _ => true | _ => false end.
Definition is_context_close (c : handle) (o : op) : bool :=
  match o with ContextClose c' => Nat.eqb c c' | _ => false end.

Definition timeout_error : exn :=
  mkExn (Exception_ "TimeoutError") "Timeout 30000ms exceeded.".

Definition target_closed : exn :=
  mkExn (Exception_ "Error") "Target page, context or browser has been closed".

Definition connection_error : exn :=
  mkExn (Exception_ "ConnectionError") "service unreachable".

(** A process with one session ["s1"] (context 1, page 2) whose tracker
    holds [history] at [history_index]. *)
Definition one_session (history : list json) (history_index : Z) : world :=
  mkWorld (mkState [("s1", 0%nat)] (Some 0%nat) (Some 0%nat)
             [mkSession 1%nat 2%nat 0 history history_index]) [] 0%nat.

Definition fresh_world : world := mkWorld init_state [] 0%nat.

(** A process with two fresh sessions, ["s1"] (context 1, page 2) and
    ["s2"] (context 3, page 4). *)
Definition two_sessions : world :=
  mkWorld (mkState [("s1", 0%nat); ("s2", 1%nat)] (Some 0%nat) (Some 0%nat)
             [mkSession 1%nat 2%nat 0 [] (-1); mkSession 3%nat 4%nat 0 [] (-1)]) [] 0%nat.

Definition is_receive (o : op) : bool :=
  match o with WsReceiveJson _ => true | _ => false end.

Definition disconnect : exn := mkExn WebSocketDisconnect "1001".

Definition navigate_frame (u : string) : json :=
  JObj [("type", JStr "navigate"); ("url", JStr u)].

Definition keypress_frame (k : string) (held : list (string * json)) : json :=
  JObj [("type", JStr "keypress"); ("key", JStr k); ("modifiers", JObj held)].

Definition ABC : list json := [JStr "A"; JStr "B"; JStr "C"].

(** [s] as a JSON string literal (for an [s] that needs no escapes). *)
Definition quoted (s : string) : string :=
  Search.double_quote +:+ s +:+ Search.double_quote.

(** The JSON text of a list of two strings. *)
Definition two_strings (a b : string) : string :=
  "[" +:+ quoted a +:+ ", " +:+ quoted b +:+ "]".

(** A decoder that knows two texts. *)
Definition toy_loads (s : string) : option json :=
  if String.eqb s "[1, 2]" then Some (JArr [JNum 1 0; JNum 2 0])
  else if String.eqb s (two_strings "docker run" "docker compose")
  then Some (JArr [JStr "docker run"; JStr "docker compose"])
  else None.

(** A response model that rejects every element that is not a string. *)
Definition strict (v : json) : option string := None.

(** Close a session, then look it up, in one task. *)
Definition close_then_get (session_id : string) : coro (option loc) :=
  Browser.BrowserSessionManager.close_session session_id ;;
  Browser.BrowserSessionManager.get_session session_id.

(** Task 0 starts and awaits the context close; the engine closes the
    context; task 1 runs before task 0 is resumed. *)
Definition lookup_during_close : list action :=
  [Resume 0; Complete 0; Resume 1]%nat.

(** Two first requests: both tasks test [self.playwright] before either
    has assigned it, then each starts Playwright and launches a browser. *)
Definition both_before_assignment : list action :=
  [Resume 0; Resume 1; Complete 0; Resume 0; Complete 1; Resume 1;
   Complete 0; Resume 0; Complete 1; Resume 1]%nat.

(** Task 0 has assigned [self.playwright] and awaits the launch when task 1
    starts. *)
Definition second_during_launch : list action :=
  [Resume 0; Complete 0; Resume 0; Resume 1]%nat.

End Scenario.

(** ** Properties of the history tracker *)

Module Tracker.

(** The cursor stays within [-1 .. len(history) - 1]. *)
Definition hist_inv (x : session) : Prop :=
  -1 <= history_index x <= Z.of_nat (length (history x)) - 1.

(** Every session dict on the heap, listed in [sessions] or only held by a
    handler, has its cursor in range. *)
Definition tracker_inv (s : state) : Prop := Forall hist_inv (heap s).

(** [recordNavigation(url)] on a session dict: the history cut after the
    cursor, [url] appended, the cursor on the new last entry. *)
Definition recorded (url : json) (x : session) : session :=
  let h := list_upto (history x) (history_index x + 1) ++ [url] in
  mkSession (context x) (page x) (created_at x) h (Z.of_nat (length h) - 1).

(** What the WebSocket route leaves instead: [url] appended to the whole
    history. *)
Definition appended (url : json) (x : session) : session :=
  let h := history x ++ [url] in
  mkSession (context x) (page x) (created_at x) h (Z.of_nat (length h) - 1).

(** [c], started in [s], keeps [I] at every write, whatever the outside world
    answers and whatever other tasks did to the state while [c] was waiting
    (as long as they kept [I] too). *)
Fixpoint preserves {R} (I : state -> Prop) (c : coro R) (s : state) : Prop :=
  match c with
  | Ret _ => True
  | Raise _ => True
  | Get k => preserves I (k s) s
  | Put s' k => I s' /\ preserves I k s'
  | Await o k => forall r s', I s' -> preserves I (k r) s'
  end.

Definition task_preserves {R} (I : state -> Prop) (t : task R) : Prop :=
  match t with
  | Runnable c => forall s, I s -> preserves I c s
  | Waiting o k => forall r s, I s -> preserves I (k r) s
  | Finished _ => True
  end.

End Tracker.

(** ** The chord of a key press *)

Module Chord.

Import Browser.

(** The held modifiers in the order ctrl, alt, shift, meta, then the key,
    joined by [+]. *)
Definition chord (modifiers : gmap string bool) (key : string) : string :=
  join "+"
    ((if held modifiers "ctrl" then ["Control"] else []) ++
     (if held modifiers "alt" then ["Alt"] else []) ++
     (if held modifiers "shift" then ["Shift"] else []) ++
     (if held modifiers "meta" then ["Meta"] else []) ++
     [key]).

End Chord.

(** ** Everything a client can ask for *)

Module Requests.

Import Browser.

Inductive request : Type :=
| CreateSession
| CloseSession (session_id : string)
| GetSessionStatus (session_id : string)
| Navigate (session_id : string) (body : NavigateRequest)
| GoBack (session_id : string)
| GoForward (session_id : string)
| Refresh (session_id : string)
| GetScreenshot (session_id : string)
| Click (session_id : string) (body : ClickRequest)
| TypeText (session_id : string) (body : TypeRequest)
| KeyPress (session_id : string) (body : KeyPressRequest)
| Scroll (session_id : string) (body : ScrollRequest)
| WebSocket (websocket : handle) (session_id : string) (script : list turn)
| Frame (websocket : handle) (session : loc) (page : handle) (data : json)
| Shutdown.

Definition discard {A} (c : coro A) : coro unit := _ <- c ;; Ret tt.

(** The handler of a request.  [WebSocket] is a whole connection, [Frame]
    one inbound frame on a connection that holds [session] and [page]. *)
Definition serve (r : request) : coro unit :=
  match r with
  | CreateSession => discard create_session
  | CloseSession session_id => discard (close_session session_id)
  | GetSessionStatus session_id => discard (get_session_status session_id)
  | Navigate session_id body => discard (navigate session_id body)
  | GoBack session_id => discard (go_back session_id)
  | GoForward session_id => discard (go_forward session_id)
  | Refresh session_id => discard (refresh session_id)
  | GetScreenshot session_id => discard (get_screenshot session_id)
  | Click session_id body => discard (click session_id body)
  | TypeText session_id body => discard (type_text session_id body)
  | KeyPress session_id body => discard (keypress session_id body)
  | Scroll session_id body => discard (scroll session_id body)
  | WebSocket websocket session_id script =>
      discard (websocket_endpoint websocket session_id script)
  | Frame websocket session page data => dispatch websocket session page data
  | Shutdown => cleanup_sessions
  end.

(** The requests served one after the other. *)
Definition serve_all (env : oracle) (rs : list request) (w : world) : world :=
  fold_left (fun w r => (run env (serve r) w).2) rs w.

End Requests.

(** ** Properties of shutdown and of the event log *)

Module Shutdown.

Definition is_shutdown_call (o : op) : bool :=
  match o with
  | ContextClose _ | BrowserClose _ | PlaywrightStop _ => true
  | _ => false
  end.

(** The engine carries out every close and stop it is asked for. *)
Definition engine_closes (env : oracle) : Prop :=
  forall n o, is_shutdown_call o = true -> is_ok (env n o) = true.

(** The keys of [sessions] are unique, as in any dict, and every session it
    lists was allocated. *)
Definition store_wf (s : state) : Prop :=
  NoDup (dict_keys (sessions s)) /\
  forall id l, In (id, l) (sessions s) -> is_Some (heap s !! l).

(** The contexts of the sessions listed in [d], in store order. *)
Definition contexts_of (h : list session) (d : list (string * loc)) : list handle :=
  omap (fun kv => context <$> h !! kv.2) d.

Definition closes (cs : list handle) : list event :=
  map (fun c => Ev (ContextClose c) true) cs.

Definition engine_shutdown (s : state) : list event :=
  match browser s with Some b => [Ev (BrowserClose b) true] | None => [] end ++
  match playwright s with Some pw => [Ev (PlaywrightStop pw) true] | None => [] end.

(** The log shows that context [c] was closed. *)
Definition context_closed (lg : list event) (c : handle) : bool :=
  existsb (fun e => match ev_op e with
                    | ContextClose c' => Nat.eqb c c' && ev_ok e
                    | _ => false
                    end) lg.

Definition is_launch (e : event) : bool :=
  match ev_op e with ChromiumLaunch _ _ _ => ev_ok e | _ => false end.

(** The number of browsers the log shows launched. *)
Definition launches (lg : list event) : nat := length (List.filter is_launch lg).

Definition finished {R} (t : task R) : option (outcome R) :=
  match t with Finished r => Some r | _ => None end.

End Shutdown.

(** ** Properties of the suggestion endpoint *)

Module Suggestions.

(** The template list of the fallback. *)
Definition template (q : string) : list string :=
  [ q +:+ " tutorial"; q +:+ " example"; q +:+ " documentation";
    "how to " +:+ q; q +:+ " guide" ].

(** The part of a stripped reply that is handed to [json.loads]: the reply
    itself when it starts with a bracket, else the span from its first
    opening to its last closing bracket, if there is one. *)
Definition bracketed (content : string) : option string :=
  if startswith_char content "[" then Some content
  else
    let start := find_char content "[" in
    let end_ := rfind_char content "]" + 1 in
    if (start >=? 0) && (end_ >? start) then Some (str_slice content start end_) else None.

(** The guard of the endpoint lets [q] through. *)
Definition nontrivial (q : string) : Prop :=
  q <> "" /\ (2 <= String.length (strip q))%nat.

End Suggestions.

(** ** What a handler does and does not do *)

Module Effects.

Import Browser Requests.

(** [c] never writes the state, whatever it reads and is answered. *)
Fixpoint never_writes {R} (c : coro R) : Prop :=
  match c with
  | Ret _ => True
  | Raise _ => True
  | Get k => forall s, never_writes (k s)
  | Put _ _ => False
  | Await o k => forall r, never_writes (k r)
  end.

(** Every call [c] makes satisfies [P]. *)
Fixpoint calls_only {R} (P : op -> bool) (c : coro R) : Prop :=
  match c with
  | Ret _ => True
  | Raise _ => True
  | Get k => forall s, calls_only P (k s)
  | Put _ k => calls_only P k
  | Await o k => P o = true /\ forall r, calls_only P (k r)
  end.

(** The events logged between [w] and a later [w']. *)
Definition new_events (w w' : world) : list event := drop (length (log w)) (log w').

(** The session id in the path of a REST route. *)
Definition keyed (r : request) : option string :=
  match r with
  | CloseSession id | GetSessionStatus id | Navigate id _ | GoBack id | GoForward id
  | Refresh id | GetScreenshot id | Click id _ | TypeText id _ | KeyPress id _
  | Scroll id _ => Some id
  | _ => None
  end.

(** The routes that only query the page or forward input to it. *)
Definition passes_through (r : request) : bool :=
  match r with
  | GetSessionStatus _ | Refresh _ | GetScreenshot _ | Click _ _ | TypeText _ _
  | KeyPress _ _ | Scroll _ _ => true
  | _ => false
  end.

(** The requests that create or close sessions. *)
Definition manages_store (r : request) : bool :=
  match r with
  | CreateSession | CloseSession _ | Shutdown => true
  | _ => false
  end.

(** The session dict a request works on, if any. *)
Definition touches (r : request) (s : state) : option loc :=
  match r with
  | Navigate id _ | GoBack id | GoForward id | WebSocket _ id _ => dict_get id (sessions s)
  | Frame _ l _ _ => Some l
  | _ => None
  end.

(** What identifies the store apart from the contents of the session
    dicts. *)
Definition same_store (s s' : state) : Prop :=
  sessions s' = sessions s /\ playwright s' = playwright s /\ browser s' = browser s /\
  length (heap s') = length (heap s).

(** The store is as in [s0] and the dict at [l] is [x]. *)
Definition apart (s0 : state) (l : loc) (x : session) (s : state) : Prop :=
  same_store s0 s /\ heap s !! l = Some x.

(** The dict at [l] is [x]. *)
Definition holds_at (l : loc) (x : session) (s : state) : Prop := heap s !! l = Some x.

Definition is_engine_start (o : op) : bool :=
  match o with AsyncPlaywrightStart | ChromiumLaunch _ _ _ => true | _ => false end.

Definition is_capture (o : op) : bool :=
  match o with PageScreenshot _ _ _ => true | _ => false end.

(** A frame of the given type and nothing else. *)
Definition bare_frame (event_type : string) : json := JObj [("type", JStr event_type)].

(** The frame types the consumer loop knows. *)
Definition known_types : list string :=
  ["navigate"; "click"; "type"; "keypress"; "scroll"; "back"; "forward"; "refresh"].

(** *** The two directions of the history cursor *)

Inductive direction : Type := Back | Forward.

Definition opposite (d : direction) : direction :=
  match d with Back => Forward | Forward => Back end.

(** The test both routes make before they move the cursor. *)
Definition can_move (d : direction) (x : session) : bool :=
  match d with
  | Back => history_index x >? 0
  | Forward => history_index x <? Z.of_nat (length (history x)) - 1
  end.

(** The write both routes make. *)
Definition moved (d : direction) (x : session) : session :=
  match d with
  | Back => set_history_index (history_index x - 1) x
  | Forward => set_history_index (history_index x + 1) x
  end.

Definition page_move (d : direction) (p : handle) : op :=
  match d with Back => PageGoBack p | Forward => PageGoForward p end.

Definition is_page_move (d : direction) (o : op) : bool :=
  match d, o with
  | Back, PageGoBack _ => true
  | Forward, PageGoForward _ => true
  | _, _ => false
  end.

Definition move_route (d : direction) (session_id : string) : request :=
  match d with Back => GoBack session_id | Forward => GoForward session_id end.

Definition move_frame (d : direction) : json :=
  bare_frame (match d with Back => "back" | Forward => "forward" end).

Definition no_move (d : direction) : json :=
  JObj [("status", JStr (match d with Back => "no_history" | Forward => "no_forward_history" end))].

(** The state with the dict at [l] replaced. *)
Definition with_dict (l : loc) (x : session) (w : world) : world :=
  set_st (set_heap (<[l := x]> (heap (st w))) (st w)) w.

(** *** Which page a request talks to *)

(** In a run that starts in [s] with nothing else scheduled, every call of
    [c] satisfies [P]. *)
Fixpoint calls_from {R} (P : op -> bool) (c : coro R) (s : state) : Prop :=
  match c with
  | Ret _ => True
  | Raise _ => True
  | Get k => calls_from P (k s) s
  | Put s' k => calls_from P k s'
  | Await o k => P o = true /\ forall r, calls_from P (k r) s
  end.

(** [o] is a call on page [p]. *)
Definition on_page (p : handle) (o : op) : bool :=
  match o with
  | PageGoto p' _ _ _ | PageUrl p' | PageTitle p' | PageGoBack p' | PageGoForward p'
  | PageReload p' | PageScreenshot p' _ _ | MouseClick p' _ _ _ | KeyboardType p' _
  | KeyboardPress p' _ | MouseWheel p' _ _ => Nat.eqb p' p
  | _ => false
  end.

(** [o] is a call on the connection [ws]. *)
Definition on_socket (ws : handle) (o : op) : bool :=
  match o with
  | WsAccept ws' | WsClose ws' _ _ | WsSendJson ws' _ | WsReceiveJson ws' => Nat.eqb ws' ws
  | _ => false
  end.

Definition is_sleep (o : op) : bool := match o with Sleep _ => true | _ => false end.

(** The requests that work on the page of a session, with the id of the
    session. *)
Definition page_user (r : request) : option string :=
  match r with
  | GetSessionStatus id | Navigate id _ | GoBack id | GoForward id | Refresh id
  | GetScreenshot id | Click id _ | TypeText id _ | KeyPress id _ | Scroll id _
  | WebSocket _ id _ => Some id
  | _ => None
  end.

(** The calls within the reach of [r] when its session has page [p]: calls
    on [p], and for a WebSocket connection calls on the connection and
    [asyncio.sleep]. *)
Definition reaches (r : request) (p : handle) (o : op) : bool :=
  match r with
  | WebSocket ws _ _ => on_page p o || on_socket ws o || is_sleep o
  | _ => on_page p o
  end.

(** *** Frames *)

(** The frames for which the consumer loop has nothing to do: an object
    whose type is none of the eight commands, or a [navigate] whose url is
    missing or falsy. *)
Definition ignored (data : json) : bool :=
  match data with
  | JObj items =>
      match dict_get "type" items with
      | Some (JStr t) =>
          if String.eqb t "navigate"
          then negb (truthy (match dict_get "url" items with Some v => v | None => JNull end))
          else negb (existsb (String.eqb t) known_types)
      | _ => true
      end
  | _ => false
  end.

(** The frame the consumer sends when a navigation raised [e]. *)
Definition error_frame (e : exn) : json :=
  JObj [("type", JStr "error"); ("message", JStr (exn_str e))].

(** The answer of the close route. *)
Definition closed_answer : json := JObj [("status", JStr "closed")].




(** The calls of the suggestion route. *)
Definition is_service (o : op) : bool :=
  match o with ImportChat | Chat _ _ => true | _ => false end.

(** *** The engine handles *)


(** Two tasks close the same session: both pass the membership test and
    await the context close before either deletes the key. *)
Definition both_close : list action :=
  [Resume 0; Resume 1; Complete 0; Complete 1; Resume 0; Resume 1]%nat.

Definition KeyError (key : string) : exn :=
  mkExn (Exception_ "KeyError") ("'" +:+ key +:+ "'").

End Effects.

(** * Theorems *)

Import Browser Tracker Chord Requests Shutdown Suggestions Scenario.

(** ** The primitives compute as Python does *)

Example b64_Man : b64encode "Man" = "TWFu" /\ b64encode "Ma" = "TWE=" /\ b64encode "M" = "TQ==".
Proof. vm_compute. auto. Qed.

Example str_of_int_ex : str_of_int 5 = "5" /\ str_of_int 0 = "0" /\ str_of_int (-12) = "-12".
Proof. vm_compute. auto. Qed.

Example strip_ex : strip "  a b  " = "a b" /\ strip "   " = "" /\ find_char "ab[c]" "[" = 2
  /\ rfind_char "a]b]" "]" = 3 /\ rfind_char "abc" "]" = -1 /\ str_slice "ab[c]d" 2 5 = "[c]"
  /\ list_upto [1;2;3] 2 = [1;2] /\ list_upto [1;2;3] (-1) = [1;2] /\ list_upto [1;2;3] 7 = [1;2;3].
Proof. vm_compute. repeat split. Qed.

Lemma list_upto_take {A} (l : list A) (n : Z) :
  0 <= n -> list_upto l n = take (Z.to_nat n) l.
Proof.
  intros Hn. unfold list_upto, slice_bound.
  destruct (Z.ltb_spec n 0); [lia|].
  destruct (Z.le_ge_cases n (Z.of_nat (length l))).
  - by rewrite Z.min_l.
  - rewrite Z.min_r by lia. rewrite Nat2Z.id.
    rewrite !take_ge; auto; lia.
Qed.

Lemma dict_del_head {V} id (l : V) d :
  ~ In id (dict_keys d) -> dict_del id ((id, l) :: d) = d.
Proof.
  intros Hn. unfold dict_del. simpl. rewrite String.eqb_refl. simpl.
  induction d as [|[k v] d IH]; [reflexivity|].
  simpl in *. destruct (String.eqb_spec id k) as [->|Hne]; [tauto|].
  simpl. f_equal. apply IH. tauto.
Qed.

Lemma lookup_insert_same {A} (h : list A) l (x y : A) :
  h !! l = Some x -> <[l := y]> h !! l = Some y.
Proof. intros H. apply list_lookup_insert_eq. by eapply lookup_lt_Some. Qed.

(** ** The two semantics *)

Section Semantics.

Context {A B : Type} (env : oracle).

Lemma run_bind (c : coro A) (f : A -> coro B) w :
  run env (bind c f) w =
  match run env c w with
  | (Ok a, w') => run env (f a) w'
  | (Exc e, w') => (Exc e, w')
  end.
Proof.
  revert w. induction c as [r|e|k IH|s' k IH|o k IH]; simpl; intros w; auto.
Qed.

Lemma run_catch (c : coro A) (h : exn -> coro A) w :
  run env (catch c h) w =
  match run env c w with
  | (Ok a, w') => (Ok a, w')
  | (Exc e, w') => run env (h e) w'
  end.
Proof.
  revert w. induction c as [r|e|k IH|s' k IH|o k IH]; simpl; intros w; auto.
Qed.

Lemma step_resume_alone {R} (c : coro R) w :
  step env (Resume 0%nat) ([Runnable c], w) = ([(advance env c w).1], (advance env c w).2).
Proof. unfold step. simpl. by destruct (advance env c w). Qed.

Lemma solo_completes {R} (c : coro R) w :
  fold_left (fun acc a => step env a acc) (solo env c w)
    ([(advance env c w).1], (advance env c w).2)
  = ([Finished (run env c w).1], (run env c w).2).
Proof.
  revert w. induction c as [r|e|k IH|s' k IH|o k IH]; intros w; simpl; auto.
  destruct (suspends o); simpl; [|apply IH].
  change (fold_left (fun acc a => step env a acc)
            (solo env (k (env (clock w) o)) (record o (is_ok (env (clock w) o)) w))
            (step env (Resume 0%nat)
               ([Runnable (k (env (clock w) o))], record o (is_ok (env (clock w) o)) w))
          = ([Finished (run env (k (env (clock w) o))
                          (record o (is_ok (env (clock w) o)) w)).1],
             (run env (k (env (clock w) o)) (record o (is_ok (env (clock w) o)) w)).2)).
  rewrite step_resume_alone. apply IH.
Qed.

(** [run] is the event loop with a single task. *)
Lemma run_alone {R} (c : coro R) w :
  exec_schedule env (Resume 0%nat :: solo env c w) ([Runnable c], w)
  = ([Finished (run env c w).1], (run env c w).2).
Proof.
  unfold exec_schedule. cbn [fold_left]. rewrite step_resume_alone. apply solo_completes.
Qed.

End Semantics.

(** Unfolding the routes down to the constructors of [coro]. *)
Ltac unfold_routes :=
  unfold discard, create_session, close_session, get_session_status, navigate, go_back,
    go_forward, refresh, get_screenshot, click, type_text, keypress, scroll,
    dispatch, stream_iteration, data_get, require_session,
    BrowserSessionManager.create_session, BrowserSessionManager.initialize,
    BrowserSessionManager.get_session, BrowserSessionManager.close_session,
    deref, update, except_Exception, attempt, call, modify, get.

(** Pushing [run] through a handler, with the hypotheses about the state
    and about the answers of the outside world as rewrite rules. *)
Ltac run_step :=
  match goal with
  | H : dict_get _ _ = _ |- _ => rewrite H
  | H : _ !! _ = Some _ |- _ => rewrite H
  | |- _ => erewrite lookup_insert_same
              by (repeat (erewrite lookup_insert_same by eauto); eauto)
  | H : ?env _ _ = _ |- _ => rewrite H
  | H : is_Exception _ = _ |- _ => rewrite H
  end.

Ltac run_through := simpl; repeat (run_step; simpl).

Ltac inserted :=
  first [reflexivity | repeat (eapply lookup_insert_same); eassumption].

(** ** Invariants of the shared state *)

Section Preservation.

Context (I : state -> Prop).

Lemma preserves_bind {A B} (c : coro A) (f : A -> coro B) s :
  I s -> preserves I c s -> (forall a s', I s' -> preserves I (f a) s') ->
  preserves I (bind c f) s.
Proof.
  intros Hs Hc Hf. revert s Hs Hc.
  induction c as [r|e|k IH|s' k IH|o k IH]; simpl; intros s Hs Hc; auto.
  destruct Hc; split; auto.
Qed.

Lemma preserves_catch {A} (c : coro A) (h : exn -> coro A) s :
  I s -> preserves I c s -> (forall e s', I s' -> preserves I (h e) s') ->
  preserves I (catch c h) s.
Proof.
  intros Hs Hc Hh. revert s Hs Hc.
  induction c as [r|e|k IH|s' k IH|o k IH]; simpl; intros s Hs Hc; auto.
  destruct Hc; split; auto.
Qed.

Lemma preserves_attempt {A} (c : coro A) s :
  I s -> preserves I c s -> preserves I (attempt c) s.
Proof.
  intros Hs Hc. unfold attempt. apply preserves_catch; auto.
  - apply preserves_bind; simpl; auto.
  - simpl; auto.
Qed.

Lemma preserves_for_each {A} (xs : list A) (body : A -> coro unit) s :
  I s -> (forall x s', I s' -> preserves I (body x) s') ->
  preserves I (for_each xs body) s.
Proof.
  intros Hs Hb. revert s Hs. induction xs as [|x xs IH]; simpl; intros s Hs; auto.
  apply preserves_bind; auto.
Qed.

(** Sequential runs keep the invariant. *)
Lemma preserves_run {R} env (c : coro R) w :
  I (st w) -> preserves I c (st w) -> I (st (run env c w).2).
Proof.
  revert w. induction c as [r|e|k IH|s' k IH|o k IH]; simpl; intros w Hw Hc; auto.
  destruct Hc. apply IH; auto.
Qed.

(** So does every interleaving. *)
Lemma advance_preserves {R} env (c : coro R) w :
  I (st w) -> preserves I c (st w) ->
  I (st (advance env c w).2) /\ task_preserves I (advance env c w).1.
Proof.
  revert w. induction c as [r|e|k IH|s' k IH|o k IH]; simpl; intros w Hw Hc; auto.
  - destruct Hc. apply IH; auto.
  - destruct (suspends o); simpl; auto.
Qed.

Lemma step_preserves {R} env a (pool : list (task R)) w :
  I (st w) -> Forall (task_preserves I) pool ->
  I (st (step env a (pool, w)).2) /\ Forall (task_preserves I) (step env a (pool, w)).1.
Proof.
  intros Hw Hp. destruct a as [i|i]; simpl.
  - destruct (pool !! i) as [[c|o k|r]|] eqn:E; simpl; auto.
    pose proof (Forall_lookup_1 _ _ _ _ Hp E) as Hc; simpl in Hc.
    destruct (advance_preserves env c w Hw (Hc _ Hw)) as [H1 H2].
    destruct (advance env c w) as [t w']; simpl in *. split; auto.
    by apply Forall_insert.
  - destruct (pool !! i) as [[c|o k|r]|] eqn:E; simpl; auto.
    pose proof (Forall_lookup_1 _ _ _ _ Hp E) as Hc; simpl in Hc.
    split; auto. apply Forall_insert; auto. simpl. auto.
Qed.

Lemma exec_schedule_preserves {R} env schedule (pool : list (task R)) w :
  I (st w) -> Forall (task_preserves I) pool ->
  I (st (exec_schedule env schedule (pool, w)).2).
Proof.
  unfold exec_schedule. revert pool w.
  induction schedule as [|a schedule IH]; cbn [fold_left]; intros pool w Hw Hp; auto.
  destruct (step_preserves env a pool w Hw Hp) as [H1 H2].
  destruct (step env a (pool, w)) as [pool' w']. by apply IH.
Qed.

End Preservation.

(** ** The history tracker *)

Lemma hist_inv_fresh context page now : hist_inv (mkSession context page now [] (-1)).
Proof. unfold hist_inv; simpl. lia. Qed.

Lemma hist_inv_truncate x :
  hist_inv x -> hist_inv (set_history (list_upto (history x) (history_index x + 1)) x).
Proof.
  unfold hist_inv; simpl. intros H.
  rewrite list_upto_take by lia. rewrite length_take. lia.
Qed.

Lemma hist_inv_append x u : hist_inv x -> hist_inv (set_history (history x ++ [u]) x).
Proof. unfold hist_inv; simpl. rewrite length_app; simpl. lia. Qed.

Lemma hist_inv_last x : hist_inv (set_history_index (Z.of_nat (length (history x)) - 1) x).
Proof. unfold hist_inv; simpl. lia. Qed.

Lemma hist_inv_back x :
  hist_inv x -> (history_index x >? 0) = true ->
  hist_inv (set_history_index (history_index x - 1) x).
Proof. unfold hist_inv; simpl. lia. Qed.

Lemma hist_inv_forward x :
  hist_inv x -> (history_index x <? Z.of_nat (length (history x)) - 1) = true ->
  hist_inv (set_history_index (history_index x + 1) x).
Proof. unfold hist_inv; simpl. lia. Qed.

Lemma tracker_inv_lookup s l x : tracker_inv s -> heap s !! l = Some x -> hist_inv x.
Proof. intros Hs Hl. eapply Forall_lookup_1; eauto. Qed.

(** One step of a preservation proof for [tracker_inv]: a write is checked
    against the lemmas above, a branch of the handler is split. *)
Ltac tracker_step :=
  match goal with
  | |- True => exact I
  | |- tracker_inv ?S /\ _ =>
      let H := fresh "Hinv" in
      assert (H : tracker_inv S);
      [ unfold tracker_inv in *; simpl in * | split; [exact H|] ]
  | |- forall _, _ => intro
  | |- Forall hist_inv _ => assumption
  | |- Forall hist_inv (<[_ := _]> _) => apply Forall_insert; [assumption|]
  | |- hist_inv (set_history (list_upto _ _) _) => apply hist_inv_truncate
  | |- hist_inv (set_history (_ ++ _) _) => apply hist_inv_append
  | |- hist_inv (set_history_index (Z.of_nat _ - 1) _) => apply hist_inv_last
  | |- hist_inv (set_history_index (_ - 1) _) => apply hist_inv_back
  | |- hist_inv (set_history_index (_ + 1) _) => apply hist_inv_forward
  | H : tracker_inv _, E : _ !! _ = Some ?x |- hist_inv ?x =>
      exact (tracker_inv_lookup _ _ _ H E)
  | H : Forall hist_inv _, E : _ !! _ = Some ?x |- hist_inv ?x =>
      exact (Forall_lookup_1 _ _ _ _ H E)
  | |- _ = true => congruence
  | |- preserves _ ?c _ =>
      match c with
      | context [match ?x with _ => _ end] => destruct x eqn:?
      end
  end.

Ltac tracker := repeat (simpl; tracker_step).

Lemma dispatch_preserves websocket session page data s :
  tracker_inv s -> preserves tracker_inv (dispatch websocket session page data) s.
Proof. intros Hs. unfold_routes. tracker. Qed.

Lemma stream_iteration_preserves websocket page s :
  tracker_inv s -> preserves tracker_inv (stream_iteration websocket page) s.
Proof. intros Hs. unfold_routes. tracker. Qed.

Lemma stream_preserves script websocket session page streaming s :
  tracker_inv s ->
  preserves tracker_inv (stream script websocket session page streaming) s.
Proof.
  revert streaming s. induction script as [|t script IH]; intros streaming s Hs; [exact I|].
  destruct t; cbn [stream].
  - destruct streaming; [|auto].
    apply preserves_bind; auto.
    apply preserves_attempt; auto using stream_iteration_preserves.
  - apply preserves_bind; auto.
    + apply preserves_attempt; auto.
      apply preserves_bind; auto.
      * unfold call; simpl. intros [a|e] s' Hs'; exact I.
      * intros; by apply dispatch_preserves.
    + intros [a|e] s' Hs'; auto.
      destruct (is_WebSocketDisconnect e); exact I.
Qed.

Lemma websocket_endpoint_preserves websocket session_id script s :
  tracker_inv s ->
  preserves tracker_inv (websocket_endpoint websocket session_id script) s.
Proof.
  intros Hs. unfold websocket_endpoint.
  apply preserves_bind; auto.
  { unfold call; simpl. intros [a|e] s' Hs'; exact I. }
  intros _ s1 Hs1. apply preserves_bind; auto.
  { exact I. }
  intros [l|] s2 Hs2.
  - apply preserves_bind; auto.
    + unfold_routes. tracker.
    + intros; by apply stream_preserves.
  - unfold_routes. tracker.
Qed.

Lemma close_session_preserves session_id s :
  tracker_inv s ->
  preserves tracker_inv (BrowserSessionManager.close_session session_id) s.
Proof. intros Hs. unfold_routes. tracker. Qed.

Lemma cleanup_preserves s :
  tracker_inv s -> preserves tracker_inv BrowserSessionManager.cleanup s.
Proof.
  intros Hs. unfold BrowserSessionManager.cleanup.
  apply preserves_bind; auto; [exact I|]. intros self s1 Hs1.
  apply preserves_bind; auto.
  { apply preserves_for_each; auto. intros; by apply close_session_preserves. }
  intros _ s2 Hs2. unfold_routes. tracker.
Qed.

(** Every handler keeps every cursor in range, at each of its writes. *)
Lemma serve_preserves r s : tracker_inv s -> preserves tracker_inv (serve r) s.
Proof.
  intros Hs. destruct r; unfold serve.
  - unfold_routes. tracker.
    all: apply Forall_app; split; [assumption|].
    all: constructor; [apply hist_inv_fresh|constructor].
  - unfold_routes. tracker.
  - unfold_routes. tracker.
  - unfold_routes. tracker.
  - unfold_routes. tracker.
  - unfold_routes. tracker.
  - unfold_routes. tracker.
  - unfold_routes. tracker.
  - unfold_routes. tracker.
  - unfold_routes. tracker.
  - unfold_routes. tracker.
  - unfold_routes. tracker.
  - unfold discard. apply preserves_bind; auto.
    + by apply websocket_endpoint_preserves.
    + intros; exact I.
  - by apply dispatch_preserves.
  - by apply cleanup_preserves.
Qed.

Lemma serve_all_preserves env rs w :
  tracker_inv (st w) -> tracker_inv (st (serve_all env rs w)).
Proof.
  revert w. induction rs as [|r rs IH]; simpl; intros w Hw; auto.
  apply IH. apply preserves_run; auto. by apply serve_preserves.
Qed.

Lemma interleaved_requests_preserve env schedule (rs : list request) w :
  tracker_inv (st w) ->
  tracker_inv (st (exec_schedule env schedule (map (fun r => Runnable (serve r)) rs, w)).2).
Proof.
  intros Hw. apply exec_schedule_preserves; auto.
  apply Forall_forall. intros t Ht. apply list_elem_of_In, in_map_iff in Ht.
  destruct Ht as (r & <- & _). simpl. intros; by apply serve_preserves.
Qed.

(** The status route reads the cursor and the length of the history and
    changes nothing. *)
Lemma get_session_status_reads (env : oracle) w session_id resp w' :
  run env (get_session_status session_id) w = (Ok resp, w') ->
  exists l x,
    dict_get session_id (sessions (st w)) = Some l /\
    heap (st w) !! l = Some x /\
    can_go_back resp = (history_index x >? 0) /\
    can_go_forward resp = (history_index x <? Z.of_nat (length (history x)) - 1) /\
    st w' = st w.
Proof.
  unfold_routes. simpl.
  destruct (dict_get session_id (sessions (st w))) as [l|] eqn:Hl; simpl; [|discriminate].
  destruct (heap (st w) !! l) as [x|] eqn:Hx; simpl; [|discriminate].
  destruct (env (clock w) (PageUrl (page x))) as [u|e]; simpl; [|discriminate].
  destruct (env (S (clock w)) (PageTitle (page x))) as [t|e]; simpl; [|discriminate].
  intros [= <- <-]. exists l, x. simpl. auto.
Qed.

(** C2: from a fresh process on, every operation, over REST or over the
    WebSocket, leaves every session with
    [-1 <= history_index <= len(history) - 1]: a fresh session starts there,
    each handler keeps it, so does any sequence of requests and any
    interleaving of their handlers; and the status route answers
    [can_go_back] exactly when [history_index > 0] and [can_go_forward]
    exactly when [history_index < len(history) - 1]. *)
Theorem tracker_cursor_in_range :
  (forall context page now, hist_inv (mkSession context page now [] (-1))) /\
  (forall env r w, tracker_inv (st w) -> tracker_inv (st (run env (serve r) w).2)) /\
  (forall env rs, tracker_inv (st (serve_all env rs fresh_world))) /\
  (forall env schedule rs,
     tracker_inv
       (st (exec_schedule env schedule (map (fun r => Runnable (serve r)) rs, fresh_world)).2)) /\
  (forall (env : oracle) w session_id resp w',
     run env (get_session_status session_id) w = (Ok resp, w') ->
     exists l x,
       dict_get session_id (sessions (st w)) = Some l /\
       heap (st w) !! l = Some x /\
       (can_go_back resp = true <-> history_index x > 0) /\
       (can_go_forward resp = true <->
          history_index x < Z.of_nat (length (history x)) - 1)).
Proof.
  split; [exact hist_inv_fresh|].
  split; [intros; apply preserves_run; auto using serve_preserves|].
  split; [intros; apply serve_all_preserves; constructor|].
  split; [intros; apply interleaved_requests_preserve; constructor|].
  intros env w session_id resp w' Hrun.
  destruct (get_session_status_reads env w session_id resp w' Hrun)
    as (l & x & Hl & Hx & Hb & Hf & _).
  exists l, x. rewrite Hb, Hf. repeat split; auto; lia.
Qed.

Lemma tracker_cursor_in_range_witness :
  tracker_inv (st (one_session ABC 2)) /\
  tracker_inv (st (run calm (serve (Navigate "s1" (mkNavigateRequest "D")))
                     (one_session ABC 2)).2) /\
  run calm (get_session_status "s1") (one_session ABC 0) =
    (Ok (mkSessionStatusResponse "s1" "about:blank" "" false true),
     mkWorld (st (one_session ABC 0))
       [Ev (PageUrl 2%nat) true; Ev (PageTitle 2%nat) true] 2%nat) /\
  exists l x,
    dict_get "s1" (sessions (st (one_session ABC 0))) = Some l /\
    heap (st (one_session ABC 0)) !! l = Some x /\
    (false = true <-> history_index x > 0) /\
    (true = true <-> history_index x < Z.of_nat (length (history x)) - 1).
Proof.
  assert (H0 : tracker_inv (st (one_session ABC 2))).
  { repeat constructor; simpl; lia. }
  split; [exact H0|].
  split; [exact (proj1 (proj2 tracker_cursor_in_range) calm _ _ H0)|].
  split; [reflexivity|].
  exact (proj2 (proj2 (proj2 (proj2 tracker_cursor_in_range)))
           calm (one_session ABC 0) "s1" _ _ eq_refl).
Defined.

(** What a successful load leaves behind on each route. *)
Lemma navigate_records (env : oracle) w session_id request l x :
  dict_get session_id (sessions (st w)) = Some l ->
  heap (st w) !! l = Some x ->
  env (clock w) (PageGoto (page x) (JStr (url request)) "domcontentloaded" 30000) = Ok tt ->
  heap (st (run env (navigate session_id request) w).2) !! l
    = Some (recorded (JStr (url request)) x).
Proof.
  intros Hl Hx Hg. unfold_routes.
  destruct (env (S (clock w)) (PageUrl (page x))) as [u|e] eqn:Hu;
    [destruct (env (S (S (clock w))) (PageTitle (page x))) as [t|e] eqn:Ht|];
    try destruct (is_Exception e) eqn:He; run_through; inserted.
Qed.

Lemma dispatch_navigate_appends (env : oracle) w websocket l page x url :
  heap (st w) !! l = Some x ->
  truthy url = true ->
  env (clock w) (PageGoto page url "domcontentloaded" 30000) = Ok tt ->
  heap (st (run env (dispatch websocket l page
                       (JObj [("type", JStr "navigate"); ("url", url)])) w).2) !! l
    = Some (appended url x).
Proof.
  intros Hx Hu Hg. unfold_routes. simpl. rewrite Hu. run_through. inserted.
Qed.

(** With the cursor in range, the recorded history is the first
    [history_index + 1] entries followed by the URL, and the cursor moves
    one step. *)
Lemma recorded_in_range url x :
  hist_inv x ->
  history (recorded url x) = take (Z.to_nat (history_index x + 1)) (history x) ++ [url] /\
  history_index (recorded url x) = history_index x + 1.
Proof.
  unfold hist_inv, recorded. simpl. intros H.
  rewrite list_upto_take by lia. split; [reflexivity|].
  rewrite length_app, length_take. simpl. lia.
Qed.

(** C1 at its failing input: with history [A, B, C] and the cursor on A, a
    WebSocket [navigate] frame for D leaves [A, B, C, D] with the cursor at
    3; the REST route, on the same session, leaves [A, D] with the cursor
    at 1. *)
Theorem websocket_navigate_keeps_forward_entries :
  heap (st (run (sending (navigate_frame "D") calm)
              (websocket_endpoint 9%nat "s1" [Consumer]) (one_session ABC 0)).2)
    = [mkSession 1%nat 2%nat 0 [JStr "A"; JStr "B"; JStr "C"; JStr "D"] 3] /\
  heap (st (run calm (navigate "s1" (mkNavigateRequest "D")) (one_session ABC 0)).2)
    = [mkSession 1%nat 2%nat 0 [JStr "A"; JStr "D"] 1].
Proof. split; reflexivity. Qed.

(** The REST route presses the chord. *)
Lemma keypress_presses_chord (env : oracle) w session_id request l x :
  dict_get session_id (sessions (st w)) = Some l ->
  heap (st w) !! l = Some x ->
  let pressed :=
    KeyboardPress (page x) (JStr (chord (default ∅ (modifiers request)) (key request))) in
  log (run env (keypress session_id request) w).2
    = log w ++ [Ev pressed (is_ok (env (clock w) pressed))].
Proof.
  intros Hl Hx. unfold_routes. unfold chord. run_through.
  destruct (held _ "ctrl"), (held _ "alt"), (held _ "shift"), (held _ "meta"); simpl;
    match goal with |- context [env ?n ?o] => destruct (env n o) end; reflexivity.
Qed.

(** The WebSocket route presses the [key] field as it is, whatever else the
    frame carries. *)
Lemma dispatch_keypress_presses_key (env : oracle) w websocket session page items :
  dict_get "type" items = Some (JStr "keypress") ->
  let pressed :=
    KeyboardPress page (match dict_get "key" items with Some k => k | None => JStr "" end) in
  log (run env (dispatch websocket session page (JObj items)) w).2
    = log w ++ [Ev pressed (is_ok (env (clock w) pressed))].
Proof.
  intros Ht. unfold_routes. simpl. rewrite Ht. simpl.
  match goal with |- context [env ?n ?o] => destruct (env n o) end; reflexivity.
Qed.

(** C4 at its failing input: a WebSocket [keypress] frame with key "A" and
    modifiers ctrl and shift presses "A"; the REST route, for the same key
    and modifiers, presses "Control+Shift+A". *)
Theorem websocket_keypress_drops_modifiers :
  log (run (sending (keypress_frame "A" [("ctrl", JBool true); ("shift", JBool true)]) calm)
         (websocket_endpoint 9%nat "s1" [Consumer]) (one_session [] (-1))).2
    = [Ev (WsAccept 9%nat) true; Ev (WsReceiveJson 9%nat) true;
       Ev (KeyboardPress 2%nat (JStr "A")) true] /\
  log (run calm
         (keypress "s1" (mkKeyPressRequest "A" (Some {[ "ctrl" := true; "shift" := true ]})))
         (one_session [] (-1))).2
    = [Ev (KeyboardPress 2%nat (JStr "Control+Shift+A")) true].
Proof. split; vm_compute; reflexivity. Qed.

(** ** The REST navigate route *)

(** C5 as stated fails when the load succeeds and the title query that
    follows it raises: the handler answers 500, neither the URL nor the
    title, and the navigation stays recorded. *)
Lemma navigate_title_failure :
  run (failing is_title target_closed calm)
      (navigate "s1" (mkNavigateRequest "D")) (one_session ABC 0)
  = (Exc (http_error 500 "Target page, context or browser has been closed"),
     mkWorld
       (mkState [("s1", 0%nat)] (Some 0%nat) (Some 0%nat)
          [mkSession 1%nat 2%nat 0 [JStr "A"; JStr "D"] 1])
       [Ev (PageGoto 2%nat (JStr "D") "domcontentloaded" 30000) true;
        Ev (PageUrl 2%nat) true; Ev (PageTitle 2%nat) false]
       3%nat).
Proof. reflexivity. Qed.

(** C5, amended: on an existing session, a load that raises is answered by
    a 500 carrying the reason and leaves the state as it was; a load that
    returns is recorded in the tracker, and the answer carries the URL and
    the title when the title query returns, and is a 500 carrying its reason
    when the title query raises. *)
Theorem navigate_outcome (env : oracle) w session_id request l x :
  dict_get session_id (sessions (st w)) = Some l ->
  heap (st w) !! l = Some x ->
  let goto := PageGoto (page x) (JStr (url request)) "domcontentloaded" 30000 in
  let r := run env (navigate session_id request) w in
  (forall e,
     env (clock w) goto = Exc e -> is_Exception e = true ->
     r.1 = Exc (http_error 500 (exn_str e)) /\ st r.2 = st w) /\
  (env (clock w) goto = Ok tt ->
     heap (st r.2) !! l = Some (recorded (JStr (url request)) x) /\
     (forall u t,
        env (S (clock w)) (PageUrl (page x)) = Ok u ->
        env (S (S (clock w))) (PageTitle (page x)) = Ok t ->
        r.1 = Ok (JObj [("status", JStr "navigated"); ("url", JStr u); ("title", JStr t)])) /\
     (forall u e,
        env (S (clock w)) (PageUrl (page x)) = Ok u ->
        env (S (S (clock w))) (PageTitle (page x)) = Exc e ->
        is_Exception e = true ->
        r.1 = Exc (http_error 500 (exn_str e)))).
Proof.
  intros Hl Hx goto r. subst goto r. split.
  - intros e Hg He. unfold_routes. run_through. auto.
  - intros Hg. split; [by apply navigate_records|]. split.
    + intros u t Hu Ht. unfold_routes. run_through. reflexivity.
    + intros u e Hu Ht He. unfold_routes. run_through. reflexivity.
Qed.

Lemma navigate_outcome_witness :
  dict_get "s1" (sessions (st (one_session ABC 0))) = Some 0%nat /\
  heap (st (one_session ABC 0)) !! 0%nat = Some (mkSession 1%nat 2%nat 0 ABC 0) /\
  heap (st (run calm (navigate "s1" (mkNavigateRequest "D")) (one_session ABC 0)).2) !! 0%nat
    = Some (mkSession 1%nat 2%nat 0 [JStr "A"; JStr "D"] 1) /\
  (run calm (navigate "s1" (mkNavigateRequest "D")) (one_session ABC 0)).1
    = Ok (JObj [("status", JStr "navigated"); ("url", JStr "about:blank");
                ("title", JStr "")]) /\
  (run (failing is_goto timeout_error calm)
       (navigate "s1" (mkNavigateRequest "D")) (one_session ABC 0)).1
    = Exc (http_error 500 "Timeout 30000ms exceeded.") /\
  st (run (failing is_goto timeout_error calm)
        (navigate "s1" (mkNavigateRequest "D")) (one_session ABC 0)).2
    = st (one_session ABC 0).
Proof.
  split; [reflexivity|]. split; [reflexivity|].
  pose proof (navigate_outcome calm (one_session ABC 0) "s1" (mkNavigateRequest "D")
                0%nat (mkSession 1%nat 2%nat 0 ABC 0) eq_refl eq_refl) as [_ H].
  destruct (H eq_refl) as (Hrec & Hok & _).
  split; [exact Hrec|]. split; [exact (Hok _ _ eq_refl eq_refl)|].
  exact (proj1 (navigate_outcome (failing is_goto timeout_error calm) (one_session ABC 0)
                  "s1" (mkNavigateRequest "D") 0%nat (mkSession 1%nat 2%nat 0 ABC 0)
                  eq_refl eq_refl)
           timeout_error eq_refl eq_refl).
Defined.

(** ** The WebSocket route *)

(** C8: a connection accepted for a session id that is not in the store is
    closed at once with code 4004, "Session not found", and the handler ends
    there: the two calls are all it does, whatever the client and the
    producer would have done next, and the state is untouched. *)
Theorem websocket_unknown_session (env : oracle) w websocket session_id script :
  dict_get session_id (sessions (st w)) = None ->
  is_ok (env (clock w) (WsAccept websocket)) = true ->
  let closing := WsClose websocket 4004 "Session not found" in
  let r := run env (websocket_endpoint websocket session_id script) w in
  log r.2 = log w ++ [Ev (WsAccept websocket) true;
                      Ev closing (is_ok (env (S (clock w)) closing))] /\
  st r.2 = st w /\
  r.1 = match env (S (clock w)) closing with Ok _ => Ok Returned | Exc e => Exc e end.
Proof.
  intros Hl Ha closing r. subst closing r.
  unfold websocket_endpoint, BrowserSessionManager.get_session, call, get. simpl.
  destruct (env (clock w) (WsAccept websocket)) as [[]|e]; [|discriminate]. simpl.
  rewrite Hl. simpl.
  destruct (env (S (clock w)) (WsClose websocket 4004 "Session not found")) as [[]|e];
    simpl; rewrite <- app_assoc; auto.
Qed.

Lemma websocket_unknown_session_witness :
  dict_get "s0" (sessions (st (one_session ABC 0))) = None /\
  is_ok (calm (clock (one_session ABC 0)) (WsAccept 9%nat)) = true /\
  run calm (websocket_endpoint 9%nat "s0" [Producer; Consumer; Producer]) (one_session ABC 0)
    = (Ok Returned,
       mkWorld (st (one_session ABC 0))
         [Ev (WsAccept 9%nat) true; Ev (WsClose 9%nat 4004 "Session not found") true] 2%nat) /\
  log (run calm (websocket_endpoint 9%nat "s0" [Producer; Consumer; Producer])
         (one_session ABC 0)).2
    = [Ev (WsAccept 9%nat) true; Ev (WsClose 9%nat 4004 "Session not found") true].
Proof.
  split; [reflexivity|]. split; [reflexivity|]. split; [reflexivity|].
  exact (proj1 (websocket_unknown_session calm (one_session ABC 0) 9%nat "s0"
                  [Producer; Consumer; Producer] eq_refl eq_refl)).
Defined.

(** A load that fails on the WebSocket route is reported in an error frame
    and leaves the tracker alone. *)
Example websocket_navigate_failure_reports :
  run (failing is_goto timeout_error (sending (navigate_frame "D") calm))
      (dispatch 9%nat 0%nat 2%nat (navigate_frame "D")) (one_session ABC 0)
  = (Ok tt,
     mkWorld (st (one_session ABC 0))
       [Ev (PageGoto 2%nat (JStr "D") "domcontentloaded" 30000) false;
        Ev (WsSendJson 9%nat
              (JObj [("type", JStr "error");
                     ("message", JStr "Timeout 30000ms exceeded.")])) true]
       2%nat).
Proof. reflexivity. Qed.

(** A connection to a session that exists does stream and dispatch. *)
Example websocket_streams_known_session :
  log (run (failing is_receive disconnect calm)
         (websocket_endpoint 9%nat "s1" [Producer; Consumer]) (one_session [] (-1))).2
  = [Ev (WsAccept 9%nat) true;
     Ev (PageScreenshot 2%nat "jpeg" 40) true; Ev (PageUrl 2%nat) true;
     Ev (PageTitle 2%nat) true;
     Ev (WsSendJson 9%nat
           (JObj [("type", JStr "screenshot"); ("data", JStr "data:image/jpeg;base64,");
                  ("url", JStr "about:blank"); ("title", JStr "")])) true;
     Ev (Sleep 100) true;
     Ev (WsReceiveJson 9%nat) false] /\
  (run (failing is_receive disconnect calm)
     (websocket_endpoint 9%nat "s1" [Producer; Consumer]) (one_session [] (-1))).1
  = Ok Returned.
Proof. split; reflexivity. Qed.

(** ** The store stays well formed *)

Lemma In_dict_set {V} k (v : V) d kv : In kv (dict_set k v d) -> kv = (k, v) \/ In kv d.
Proof.
  induction d as [|[k' v'] d IH]; simpl.
  - intros [<-|[]]; auto.
  - destruct (String.eqb k k'); simpl; intros [<-|H]; auto.
    destruct (IH H); auto.
Qed.

Lemma NoDup_dict_set {V} k (v : V) d :
  NoDup (dict_keys d) -> NoDup (dict_keys (dict_set k v d)).
Proof.
  induction d as [|[k' v'] d IH]; simpl; intros Hnd.
  - apply NoDup_singleton.
  - apply NoDup_cons in Hnd as [Hnotin Hnd].
    destruct (String.eqb_spec k k') as [->|Hne]; simpl.
    + apply NoDup_cons; auto.
    + apply NoDup_cons; split; auto.
      intros Hin%list_elem_of_In%in_map_iff. destruct Hin as ([k1 v1] & Hk & Hin).
      simpl in Hk; subst k1. apply In_dict_set in Hin as [[= -> _]|Hin]; [done|].
      apply Hnotin, list_elem_of_In, in_map_iff. by exists (k', v1).
Qed.

Lemma NoDup_dict_del {V} k (d : list (string * V)) :
  NoDup (dict_keys d) -> NoDup (dict_keys (dict_del k d)).
Proof.
  unfold dict_del. induction d as [|[k' v'] d IH]; simpl; intros Hnd; auto.
  apply NoDup_cons in Hnd as [Hnotin Hnd].
  destruct (negb (String.eqb k k')); simpl; auto.
  apply NoDup_cons; split; auto.
  intros Hin%list_elem_of_In%in_map_iff. destruct Hin as ([k1 v1] & Hk & Hin).
  simpl in Hk; subst k1. apply filter_In in Hin as [Hin _].
  apply Hnotin, list_elem_of_In, in_map_iff. by exists (k', v1).
Qed.

Lemma store_wf_update s l y : store_wf s -> store_wf (set_heap (<[l := y]> (heap s)) s).
Proof.
  intros [Hnd Hh]. split; simpl; auto.
  intros id l' Hin. destruct (Hh id l' Hin) as [x Hx].
  apply lookup_lt_is_Some. rewrite length_insert. by eapply lookup_lt_Some.
Qed.

Lemma store_wf_delete s id : store_wf s -> store_wf (set_sessions (dict_del id (sessions s)) s).
Proof.
  intros [Hnd Hh]. split; simpl.
  - by apply NoDup_dict_del.
  - intros id' l' Hin. apply filter_In in Hin as [Hin _]. eauto.
Qed.

Lemma store_wf_create s id x :
  store_wf s ->
  store_wf (set_sessions (dict_set id (length (heap s)) (sessions s))
              (set_heap (heap s ++ [x]) s)).
Proof.
  intros [Hnd Hh]. split; simpl.
  - by apply NoDup_dict_set.
  - intros id' l' Hin. apply In_dict_set in Hin as [[= -> ->]|Hin].
    + apply lookup_lt_is_Some. rewrite length_app. simpl. lia.
    + destruct (Hh id' l' Hin) as [y Hy]. exists y. by apply lookup_app_l_Some.
Qed.

Lemma store_wf_engine s p b : store_wf s -> store_wf (mkState (sessions s) p b (heap s)).
Proof. intros H. exact H. Qed.

Ltac store_step :=
  match goal with
  | |- True => exact I
  | |- store_wf ?S /\ _ =>
      let H := fresh "Hwf" in
      assert (H : store_wf S);
      [ first [ assumption
              | apply store_wf_update; assumption
              | apply store_wf_delete; assumption
              | apply store_wf_create; assumption
              | apply store_wf_engine; assumption ]
      | split; [exact H|] ]
  | |- forall _, _ => intro
  | |- preserves _ ?c _ =>
      match c with
      | context [match ?x with _ => _ end] => destruct x eqn:?
      end
  end.

Ltac store := repeat (simpl; store_step).

Lemma dispatch_keeps_store websocket session page data s :
  store_wf s -> preserves store_wf (dispatch websocket session page data) s.
Proof. intros Hs. unfold_routes. store. Qed.

Lemma stream_keeps_store script websocket session page streaming s :
  store_wf s ->
  preserves store_wf (stream script websocket session page streaming) s.
Proof.
  revert streaming s. induction script as [|t script IH]; intros streaming s Hs; [exact I|].
  destruct t; cbn [stream].
  - destruct streaming; [|auto].
    apply preserves_bind; auto.
    apply preserves_attempt; auto. unfold_routes. store.
  - apply preserves_bind; auto.
    + apply preserves_attempt; auto.
      apply preserves_bind; auto.
      * unfold call; simpl. intros [a|e] s' Hs'; exact I.
      * intros; by apply dispatch_keeps_store.
    + intros [a|e] s' Hs'; auto.
      destruct (is_WebSocketDisconnect e); exact I.
Qed.

Lemma close_session_keeps_store session_id s :
  store_wf s ->
  preserves store_wf (BrowserSessionManager.close_session session_id) s.
Proof. intros Hs. unfold_routes. store. Qed.

(** Every handler keeps the store well formed, at each of its writes. *)
Lemma serve_keeps_store r s : store_wf s -> preserves store_wf (serve r) s.
Proof.
  intros Hs. destruct r; unfold serve.
  1-12: unfold_routes; store.
  - unfold discard, websocket_endpoint.
    apply preserves_bind; auto; [|intros; exact I].
    apply preserves_bind; auto.
    { unfold call; simpl. intros [a|e] s' Hs'; exact I. }
    intros _ s1 Hs1. apply preserves_bind; auto; [exact I|].
    intros [l|] s2 Hs2.
    + apply preserves_bind; auto.
      * unfold_routes. store.
      * intros; by apply stream_keeps_store.
    + unfold_routes. store.
  - by apply dispatch_keeps_store.
  - unfold cleanup_sessions, BrowserSessionManager.cleanup.
    apply preserves_bind; auto; [exact I|]. intros self s1 Hs1.
    apply preserves_bind; auto.
    { apply preserves_for_each; auto. intros; by apply close_session_keeps_store. }
    intros _ s2 Hs2. unfold_routes. store.
Qed.

Lemma store_wf_init : store_wf init_state.
Proof. split; simpl; [constructor|tauto]. Qed.

(** So the store is well formed in every state a process reaches. *)
Lemma reachable_store_wf env schedule (rs : list request) :
  store_wf (st (serve_all env rs fresh_world)) /\
  store_wf (st (exec_schedule env schedule
                  (map (fun r => Runnable (serve r)) rs, fresh_world)).2).
Proof.
  split.
  - assert (H : forall w, store_wf (st w) -> store_wf (st (serve_all env rs w))).
    { induction rs as [|r rs IH]; simpl; intros w Hw; auto.
      apply IH. apply preserves_run; auto. by apply serve_keeps_store. }
    apply H, store_wf_init.
  - apply exec_schedule_preserves; [apply store_wf_init|].
    apply Forall_forall. intros t Ht. apply list_elem_of_In, in_map_iff in Ht.
    destruct Ht as (r & <- & _). simpl. intros; by apply serve_keeps_store.
Qed.

(** ** Closing sessions and shutting down *)

Lemma engine_closes_unit (env : oracle) n o :
  reply o = unit -> engine_closes env -> is_shutdown_call o = true ->
  exists a, env n o = Ok a.
Proof.
  intros _ He Ho. specialize (He n o Ho). destruct (env n o); simpl in *; eauto.
  discriminate.
Qed.

Lemma set_sessions_same w d : sessions (st w) = d -> set_sessions d (st w) = st w.
Proof. destruct w as [[d' p b h] lg c]; simpl. by intros ->. Qed.

(** Closing the session at the head of the store. *)
Lemma run_close_session_head (env : oracle) w id l x d :
  sessions (st w) = (id, l) :: d ->
  ~ In id (dict_keys d) ->
  heap (st w) !! l = Some x ->
  run env (BrowserSessionManager.close_session id) w =
    match env (clock w) (ContextClose (context x)) with
    | Ok _ => (Ok tt, set_st (set_sessions d (st w))
                        (record (ContextClose (context x)) true w))
    | Exc e => (Exc e, record (ContextClose (context x)) false w)
    end.
Proof.
  intros Hs Hn Hx. unfold BrowserSessionManager.close_session, deref, call, modify, get.
  simpl. rewrite Hs. simpl. rewrite String.eqb_refl. simpl. rewrite Hx. simpl.
  destruct (env (clock w) (ContextClose (context x))) as [[]|e]; simpl; [|reflexivity].
  rewrite Hs. simpl. rewrite String.eqb_refl. simpl. rewrite Hs.
  by rewrite dict_del_head.
Qed.

(** The loop of [cleanup] when every close returns. *)
Lemma run_close_all (env : oracle) d : forall w,
  engine_closes env ->
  sessions (st w) = d ->
  store_wf (st w) ->
  run env (for_each (dict_keys d) BrowserSessionManager.close_session) w =
    (Ok tt, mkWorld (set_sessions [] (st w))
              (log w ++ closes (contexts_of (heap (st w)) d))
              (clock w + length d)%nat).
Proof.
  induction d as [|[id l] d IH]; intros w He Hs [Hnd Hh].
  - simpl. unfold closes, contexts_of. simpl. rewrite app_nil_r, Nat.add_0_r.
    rewrite set_sessions_same by done. by destruct w.
  - cbn [dict_keys map for_each fst]. rewrite run_bind.
    rewrite Hs in Hnd, Hh. simpl in Hnd. apply NoDup_cons in Hnd as [Hnotin Hnd].
    destruct (Hh id l) as [x Hx]; [by left|].
    rewrite (run_close_session_head env w id l x d Hs); auto.
    2:{ intros Hin. apply Hnotin. by apply list_elem_of_In. }
    destruct (engine_closes_unit env (clock w) (ContextClose (context x)) eq_refl He eq_refl)
      as [[] ->].
    rewrite IH; auto.
    + simpl. f_equal. f_equal.
      * unfold closes, contexts_of. simpl. rewrite Hx. simpl. by rewrite <- app_assoc.
      * lia.
    + split; simpl; auto. intros id' l' Hin. apply (Hh id' l'). by right.
Qed.

(** The loop of [cleanup] up to the first close that raises. *)
Lemma run_close_until (env : oracle) done : forall w id l x rest e,
  store_wf (st w) ->
  sessions (st w) = done ++ (id, l) :: rest ->
  heap (st w) !! l = Some x ->
  (forall i c, contexts_of (heap (st w)) done !! i = Some c ->
               env (clock w + i)%nat (ContextClose c) = Ok tt) ->
  env (clock w + length done)%nat (ContextClose (context x)) = Exc e ->
  run env (for_each (dict_keys (done ++ (id, l) :: rest))
             BrowserSessionManager.close_session) w =
    (Exc e, mkWorld (set_sessions ((id, l) :: rest) (st w))
              (log w ++ closes (contexts_of (heap (st w)) done)
                     ++ [Ev (ContextClose (context x)) false])
              (S (clock w + length done))).
Proof.
  induction done as [|[id0 l0] done IH]; intros w id l x rest e [Hnd Hh] Hs Hx Hok He.
  - cbn [app dict_keys map for_each fst length] in *. rewrite run_bind.
    rewrite Hs in Hnd. simpl in Hnd.
    apply NoDup_cons in Hnd as [Hnotin Hnd].
    rewrite (run_close_session_head env w id l x rest Hs); auto.
    2:{ intros Hin. apply Hnotin. by apply list_elem_of_In. }
    rewrite Nat.add_0_r in He. rewrite He. rewrite Nat.add_0_r.
    rewrite set_sessions_same by done. reflexivity.
  - cbn [app dict_keys map for_each fst] in *. rewrite run_bind.
    rewrite Hs in Hnd, Hh. simpl in Hnd. apply NoDup_cons in Hnd as [Hnotin Hnd].
    destruct (Hh id0 l0) as [x0 Hx0]; [by left|].
    rewrite (run_close_session_head env w id0 l0 x0 _ Hs); auto.
    2:{ intros Hin. apply Hnotin. by apply list_elem_of_In. }
    assert (H0 : env (clock w) (ContextClose (context x0)) = Ok tt).
    { rewrite <- (Nat.add_0_r (clock w)). apply Hok.
      unfold contexts_of. simpl. by rewrite Hx0. }
    rewrite H0.
    rewrite (IH _ id l x rest e); simpl; auto.
    + f_equal. f_equal.
      * unfold closes, contexts_of. simpl. rewrite Hx0. simpl. by rewrite <- app_assoc.
      * lia.
    + split; simpl; auto. intros id' l' Hin. apply (Hh id' l'). by right.
    + intros i c Hi. replace (S (clock w + i)) with (clock w + S i)%nat by lia.
      apply Hok. unfold contexts_of. simpl. by rewrite Hx0.
    + by replace (S (clock w + length done)) with (clock w + S (length done))%nat by lia.
Qed.

(** The engine part of [cleanup], sessions left aside. *)
Lemma run_engine_shutdown (env : oracle) w :
  engine_closes env ->
  run env
    (self <- get ;;
     match browser self with Some b => call (BrowserClose b) | None => Ret tt end ;;
     self <- get ;;
     match playwright self with Some pw => call (PlaywrightStop pw) | None => Ret tt end) w
  = (Ok tt, mkWorld (st w) (log w ++ engine_shutdown (st w))
              (clock w + length (engine_shutdown (st w)))%nat).
Proof.
  intros He. unfold engine_shutdown, call, get.
  destruct w as [s lg c]; simpl.
  destruct (browser s) as [b|] eqn:Hb, (playwright s) as [pw|] eqn:Hp; simpl.
  - destruct (engine_closes_unit env c (BrowserClose b) eq_refl He eq_refl) as [[] ->].
    simpl. rewrite Hp. simpl.
    destruct (engine_closes_unit env (S c) (PlaywrightStop pw) eq_refl He eq_refl) as [[] ->].
    simpl. unfold record; simpl. rewrite <- app_assoc. simpl. do 2 f_equal. lia.
  - destruct (engine_closes_unit env c (BrowserClose b) eq_refl He eq_refl) as [[] ->].
    simpl. rewrite Hp. simpl. unfold record; simpl. do 2 f_equal. lia.
  - rewrite Hp. simpl.
    destruct (engine_closes_unit env c (PlaywrightStop pw) eq_refl He eq_refl) as [[] ->].
    simpl. unfold record; simpl. do 2 f_equal. lia.
  - rewrite Hp. simpl. rewrite app_nil_r, Nat.add_0_r. reflexivity.
Qed.

Lemma run_cleanup (env : oracle) w :
  engine_closes env -> store_wf (st w) ->
  run env BrowserSessionManager.cleanup w
  = (Ok tt,
     mkWorld (set_sessions [] (st w))
       (log w ++ closes (contexts_of (heap (st w)) (sessions (st w)))
              ++ engine_shutdown (st w))
       (clock w + length (sessions (st w)) + length (engine_shutdown (st w)))%nat).
Proof.
  intros He Hwf. unfold BrowserSessionManager.cleanup.
  change (run env (bind get ?f) w) with (run env (f (st w)) w). cbv beta.
  rewrite run_bind. rewrite run_close_all; auto.
  rewrite (run_engine_shutdown env _ He). simpl.
  unfold engine_shutdown; simpl. by rewrite <- app_assoc.
Qed.

Lemma calm_closes : engine_closes calm.
Proof. intros n o _. reflexivity. Qed.

Lemma two_sessions_wf : store_wf (st two_sessions).
Proof.
  split; simpl.
  - apply NoDup_cons. split; [|apply NoDup_singleton].
    intros H%list_elem_of_In. destruct H as [H|[]]. discriminate.
  - intros id l [H|[H|[]]]; injection H as _ <-; simpl; eauto.
Qed.

Lemma store_wf_emptied s : store_wf (set_sessions [] s).
Proof. split; simpl; [constructor|tauto]. Qed.

(** C9 as stated fails when closing a session raises: with sessions "s1"
    and "s2" and a context close that raises for "s1", cleanup ends with
    that exception after this one call; the context of "s2", the browser
    and Playwright are never closed, and both sessions stay in the store. *)
Lemma cleanup_stops_at_failed_close :
  run (failing (is_context_close 1%nat) target_closed calm) cleanup_sessions two_sessions
  = (Exc target_closed,
     mkWorld (st two_sessions) [Ev (ContextClose 1%nat) false] 1%nat).
Proof. reflexivity. Qed.

(** C9, amended: cleanup closes the contexts of the sessions in store order,
    then the browser, then Playwright.  When each of these calls returns, it
    leaves the store empty, and a second cleanup returns as well, closing no
    context and repeating the two engine calls.  When the close of a session
    raises after the sessions before it were closed, cleanup ends with that
    exception: this session and the ones after it stay in the store, and
    nothing else is closed. *)
Theorem cleanup_outcome :
  (forall (env : oracle) w,
     engine_closes env -> store_wf (st w) ->
     let r1 := run env cleanup_sessions w in
     let r2 := run env cleanup_sessions r1.2 in
     r1.1 = Ok tt /\
     log r1.2 = log w ++ closes (contexts_of (heap (st w)) (sessions (st w)))
                      ++ engine_shutdown (st w) /\
     sessions (st r1.2) = [] /\
     r2.1 = Ok tt /\
     log r2.2 = log r1.2 ++ engine_shutdown (st w) /\
     sessions (st r2.2) = []) /\
  (forall (env : oracle) w done id l x rest e,
     store_wf (st w) ->
     sessions (st w) = done ++ (id, l) :: rest ->
     heap (st w) !! l = Some x ->
     (forall i c, contexts_of (heap (st w)) done !! i = Some c ->
                  env (clock w + i)%nat (ContextClose c) = Ok tt) ->
     env (clock w + length done)%nat (ContextClose (context x)) = Exc e ->
     let r := run env cleanup_sessions w in
     r.1 = Exc e /\
     sessions (st r.2) = (id, l) :: rest /\
     log r.2 = log w ++ closes (contexts_of (heap (st w)) done)
                     ++ [Ev (ContextClose (context x)) false]).
Proof.
  split.
  - intros env w He Hwf. unfold cleanup_sessions. cbv zeta.
    rewrite (run_cleanup env w He Hwf). cbn [fst snd].
    rewrite run_cleanup; [|exact He|apply store_wf_emptied]. simpl.
    unfold closes, contexts_of. simpl. rewrite app_assoc. repeat split; reflexivity.
  - intros env w done id l x rest e Hwf Hs Hx Hok He.
    unfold cleanup_sessions, BrowserSessionManager.cleanup. cbv zeta.
    change (run env (bind get ?f) w) with (run env (f (st w)) w). cbv beta.
    rewrite run_bind, Hs.
    rewrite (run_close_until env done w id l x rest e Hwf Hs Hx Hok He). auto.
Qed.

Lemma cleanup_outcome_witness :
  engine_closes calm /\ store_wf (st two_sessions) /\
  (run calm cleanup_sessions two_sessions).1 = Ok tt /\
  log (run calm cleanup_sessions two_sessions).2
    = [Ev (ContextClose 1%nat) true; Ev (ContextClose 3%nat) true;
       Ev (BrowserClose 0%nat) true; Ev (PlaywrightStop 0%nat) true] /\
  sessions (st (run calm cleanup_sessions two_sessions).2) = [].
Proof.
  split; [exact calm_closes|]. split; [exact two_sessions_wf|].
  destruct (proj1 cleanup_outcome calm two_sessions calm_closes two_sessions_wf)
    as (H1 & H2 & H3 & _).
  split; [exact H1|]. split; [exact H2|exact H3].
Defined.

Lemma dict_get_del {V} id (d : list (string * V)) : dict_get id (dict_del id d) = None.
Proof.
  unfold dict_del. induction d as [|[k v] d IH]; simpl; auto.
  destruct (String.eqb id k) eqn:E; simpl; auto. by rewrite E.
Qed.

(** C3 as stated fails: while the close of "s1" is in flight, after the
    engine has closed context 1 and before the closing task is resumed, a
    lookup of "s1" returns the session dict whose context is that closed
    one. *)
Lemma lookup_finds_closed_context :
  let after :=
    exec_schedule calm lookup_during_close
      ([Runnable (close_then_get "s1");
        Runnable (BrowserSessionManager.get_session "s1")], one_session [] (-1)) in
  finished <$> after.1 !! 1%nat = Some (Some (Ok (Some 0%nat))) /\
  heap (st after.2) !! 0%nat = Some (mkSession 1%nat 2%nat 0 [] (-1)) /\
  context_closed (log after.2) 1%nat = true.
Proof. vm_compute. auto. Qed.

(** C3, amended: once [close_session] has returned, [get_session] for that
    id finds nothing.  The entry is deleted only when the closing task is
    resumed after the awaited context close: when the engine has completed
    the close, the state is still the one the close started in, the entry
    included. *)
Theorem closed_session_not_found :
  (forall (env : oracle) w session_id w',
     run env (BrowserSessionManager.close_session session_id) w = (Ok tt, w') ->
     run env (BrowserSessionManager.get_session session_id) w' = (Ok None, w')) /\
  (forall (env : oracle) w session_id l x,
     dict_get session_id (sessions (st w)) = Some l ->
     heap (st w) !! l = Some x ->
     let after :=
       exec_schedule env [Resume 0%nat; Complete 0%nat]
         ([Runnable (BrowserSessionManager.close_session session_id)], w) in
     st after.2 = st w /\
     log after.2 = log w ++ [Ev (ContextClose (context x))
                               (is_ok (env (clock w) (ContextClose (context x))))]).
Proof.
  split.
  - intros env w session_id w'.
    unfold BrowserSessionManager.close_session, BrowserSessionManager.get_session,
      deref, call, modify, get. simpl.
    destruct (dict_get session_id (sessions (st w))) as [l|] eqn:Hl; simpl.
    + destruct (heap (st w) !! l) as [x|]; simpl; [|discriminate].
      destruct (env (clock w) (ContextClose (context x))) as [[]|e]; simpl; [|discriminate].
      rewrite Hl. simpl. intros [= <-]. simpl. by rewrite dict_get_del.
    + intros [= <-]. by rewrite Hl.
  - intros env w session_id l x Hl Hx.
    unfold BrowserSessionManager.close_session, deref, call, modify, get. simpl.
    rewrite Hl. simpl. rewrite Hx. simpl. auto.
Qed.

Lemma closed_session_not_found_witness :
  run calm (BrowserSessionManager.close_session "s1") (one_session [] (-1))
    = (Ok tt, mkWorld (mkState [] (Some 0%nat) (Some 0%nat) [mkSession 1%nat 2%nat 0 [] (-1)])
                [Ev (ContextClose 1%nat) true] 1%nat) /\
  run calm (BrowserSessionManager.get_session "s1")
      (mkWorld (mkState [] (Some 0%nat) (Some 0%nat) [mkSession 1%nat 2%nat 0 [] (-1)])
         [Ev (ContextClose 1%nat) true] 1%nat)
    = (Ok None,
       mkWorld (mkState [] (Some 0%nat) (Some 0%nat) [mkSession 1%nat 2%nat 0 [] (-1)])
         [Ev (ContextClose 1%nat) true] 1%nat).
Proof.
  split; [reflexivity|].
  exact (proj1 closed_session_not_found calm (one_session [] (-1)) "s1" _ eq_refl).
Defined.

(** One request after the other, the engine is launched once. *)
Example sequential_initialize_launches_once :
  launches (log (run calm (BrowserSessionManager.initialize ;;
                           BrowserSessionManager.initialize) fresh_world).2) = 1%nat.
Proof. reflexivity. Qed.

(** C7 at its failing input: two first requests interleaved at the awaits
    of [initialize] start Playwright twice and launch two browsers, of which
    the manager keeps the second; and a request that arrives while the first
    one awaits the launch skips the initialisation, finds no browser and
    fails. *)
Theorem concurrent_initialize_launches_twice :
  let raced :=
    exec_schedule calm both_before_assignment
      ([Runnable BrowserSessionManager.initialize;
        Runnable BrowserSessionManager.initialize], fresh_world) in
  let early :=
    exec_schedule calm second_during_launch
      ([Runnable BrowserSessionManager.create_session;
        Runnable BrowserSessionManager.create_session], fresh_world) in
  map finished raced.1 = [Some (Ok tt); Some (Ok tt)] /\
  launches (log raced.2) = 2%nat /\
  browser (st raced.2) = Some 3%nat /\
  finished <$> early.1 !! 1%nat
    = Some (Some (Exc (BrowserSessionManager.NoneType_has_no_attribute "new_context"))) /\
  launches (log early.2) = 0%nat.
Proof. vm_compute. auto 10. Qed.

(** ** The suggestion endpoint *)

Section SearchRoute.

Context (json_loads : string -> option json) (coerce : json -> option string)
        (EMERGENT_API_KEY : string).

Local Abbreviation get_search_suggestions :=
  (Search.get_search_suggestions json_loads coerce EMERGENT_API_KEY).

Lemma nontrivial_guard q :
  nontrivial q ->
  String.eqb q "" || (Z.of_nat (String.length (strip q)) <? 2) = false.
Proof.
  intros [Hq Hlen]. apply orb_false_iff. split.
  - by apply String.eqb_neq.
  - apply Z.ltb_ge. lia.
Qed.

(** C10: a query that is empty or has fewer than two characters once
    stripped is answered by an empty list of suggestions and the query
    itself; nothing is called, neither the suggestion service nor anything
    else, and the template list is not used. *)
Theorem short_query_returns_nothing (env : oracle) w q limit :
  q = "" \/ (String.length (strip q) < 2)%nat ->
  run env (get_search_suggestions q limit) w
    = (Ok (Search.mkSuggestionsResponse [] q), w).
Proof.
  intros H. unfold Search.get_search_suggestions.
  assert (G : String.eqb q "" || (Z.of_nat (String.length (strip q)) <? 2) = true).
  { apply orb_true_iff. destruct H as [->|H]; [by left|right]. apply Z.ltb_lt. lia. }
  rewrite G. reflexivity.
Qed.

Lemma upto_singleton q limit :
  mapM (Search.str_element coerce) (list_upto [JStr q] limit) = Some (list_upto [q] limit).
Proof.
  unfold list_upto. simpl.
  destruct (Z.to_nat _) as [|n]; simpl; [reflexivity|].
  rewrite !take_nil. reflexivity.
Qed.

(** What the endpoint makes of a reply of the service. *)
Lemma suggestions_after_reply (env : oracle) w q limit message :
  nontrivial q ->
  env (clock w) ImportChat = Ok tt ->
  (forall config messages, env (S (clock w)) (Chat config messages) = Ok message) ->
  let fallback := Ok (Search.mkSuggestionsResponse (list_upto (template q) limit) q) in
  (run env (get_search_suggestions q limit) w).1 =
    match bracketed (strip message) with
    | Some c =>
        match json_loads c with
        | Some (JArr l) =>
            match mapM (Search.str_element coerce) (list_upto l limit) with
            | Some ss => Ok (Search.mkSuggestionsResponse ss q)
            | None => fallback
            end
        | _ => fallback
        end
    | None => Ok (Search.mkSuggestionsResponse (list_upto [q] limit) q)
    end.
Proof.
  intros Hq Hi Hc fallback. subst fallback.
  unfold Search.get_search_suggestions.
  rewrite (nontrivial_guard q Hq).
  unfold Search.get_ai_suggestions, except_Exception, call. simpl.
  rewrite Hi. simpl. rewrite Hc. simpl.
  unfold bracketed.
  destruct (startswith_char (strip message) "[");
    [|destruct ((find_char (strip message) "[" >=? 0)
                && (rfind_char (strip message) "]" + 1 >? find_char (strip message) "["))].
  3: { simpl. rewrite upto_singleton. reflexivity. }
  all: unfold Search.loads;
    match goal with |- context [json_loads ?c] => destruct (json_loads c) as [[]|] end;
    simpl; try reflexivity;
    match goal with |- context [mapM ?f ?l] => destruct (mapM f l) end; reflexivity.
Qed.

(** C6, amended: for a query that passes the guard, the endpoint answers
    with the template list cut at [limit] (its first [limit] elements when
    [limit] is not negative) whenever the service cannot be imported or
    called, the bracketed part of its reply does not decode, or it decodes
    to something that is not a list whose first [limit] elements the response
    model accepts as strings.  A reply with no bracketed part is answered
    with the list [[q]] cut at [limit]. *)
Theorem fallback_suggestions (env : oracle) w q limit :
  nontrivial q ->
  let r := (run env (get_search_suggestions q limit) w).1 in
  let fallback := Ok (Search.mkSuggestionsResponse (list_upto (template q) limit) q) in
  let replies message :=
    env (clock w) ImportChat = Ok tt /\
    forall config messages, env (S (clock w)) (Chat config messages) = Ok message in
  (forall e, env (clock w) ImportChat = Exc e -> is_Exception e = true -> r = fallback) /\
  (forall e,
     env (clock w) ImportChat = Ok tt ->
     (forall config messages, env (S (clock w)) (Chat config messages) = Exc e) ->
     is_Exception e = true -> r = fallback) /\
  (forall message c,
     replies message -> bracketed (strip message) = Some c -> json_loads c = None ->
     r = fallback) /\
  (forall message c v,
     replies message -> bracketed (strip message) = Some c -> json_loads c = Some v ->
     (forall l, v = JArr l -> mapM (Search.str_element coerce) (list_upto l limit) = None) ->
     r = fallback) /\
  (forall message,
     replies message -> bracketed (strip message) = None ->
     r = Ok (Search.mkSuggestionsResponse (list_upto [q] limit) q)) /\
  (0 <= limit -> list_upto (template q) limit = take (Z.to_nat limit) (template q)).
Proof.
  intros Hq r fallback replies. subst r fallback replies.
  split; [|split; [|split; [|split; [|split]]]].
  - intros e Hi He.
    unfold Search.get_search_suggestions.
    rewrite (nontrivial_guard q Hq).
    unfold Search.get_ai_suggestions, except_Exception, call. simpl.
    rewrite Hi. simpl. rewrite He. reflexivity.
  - intros e Hi Hc He.
    unfold Search.get_search_suggestions.
    rewrite (nontrivial_guard q Hq).
    unfold Search.get_ai_suggestions, except_Exception, call. simpl.
    rewrite Hi. simpl. rewrite Hc. simpl. rewrite He. simpl. rewrite He. reflexivity.
  - intros message c [Hi Hc] Hb Hj.
    rewrite (suggestions_after_reply env w q limit message Hq Hi Hc).
    by rewrite Hb, Hj.
  - intros message c v [Hi Hc] Hb Hj Hv.
    rewrite (suggestions_after_reply env w q limit message Hq Hi Hc).
    rewrite Hb, Hj. destruct v; try reflexivity.
    by rewrite (Hv _ eq_refl).
  - intros message [Hi Hc] Hb.
    rewrite (suggestions_after_reply env w q limit message Hq Hi Hc).
    by rewrite Hb.
  - intros. by apply list_upto_take.
Qed.

End SearchRoute.

(** C6 as stated fails for a reply that has no bracketed part: it is not a
    list of strings, and the endpoint answers with the query itself, not
    with the template list. *)
Lemma unbracketed_reply_echoes_query :
  toy_loads "Sorry, I have no suggestions." = None /\
  (run (chatting "Sorry, I have no suggestions." calm)
       (Search.get_search_suggestions toy_loads strict "" "docker" 5) fresh_world).1
  = Ok (Search.mkSuggestionsResponse ["docker"] "docker").
Proof. split; reflexivity. Qed.

Lemma fallback_suggestions_witness :
  nontrivial "docker" /\
  (run (failing is_chat connection_error calm)
       (Search.get_search_suggestions toy_loads strict "" "docker" 5) fresh_world).1
  = Ok (Search.mkSuggestionsResponse
          ["docker tutorial"; "docker example"; "docker documentation";
           "how to docker"; "docker guide"] "docker").
Proof.
  assert (H : nontrivial "docker").
  { split; [discriminate|]. vm_compute. lia. }
  split; [exact H|].
  exact (proj1 (proj2 (fallback_suggestions toy_loads strict ""
                         (failing is_chat connection_error calm) fresh_world "docker" 5 H))
           connection_error eq_refl (fun _ _ => eq_refl) eq_refl).
Defined.

Lemma short_query_returns_nothing_witness :
  (" a " = "" \/ (String.length (strip " a ") < 2)%nat) /\
  run calm (Search.get_search_suggestions toy_loads strict "" " a " 5) fresh_world
  = (Ok (Search.mkSuggestionsResponse [] " a "), fresh_world).
Proof.
  assert (H : " a " = "" \/ (String.length (strip " a ") < 2)%nat).
  { right. vm_compute. lia. }
  split; [exact H|].
  exact (short_query_returns_nothing toy_loads strict "" calm fresh_world " a " 5 H).
Defined.

(** The other paths of the endpoint, on concrete replies. *)
Example suggestions_from_service :
  (run (chatting ("Here you go: " +:+ two_strings "docker run" "docker compose" +:+ " enjoy")
          calm)
       (Search.get_search_suggestions toy_loads strict "" "docker" 1) fresh_world).1
  = Ok (Search.mkSuggestionsResponse ["docker run"] "docker").
Proof. reflexivity. Qed.

Example suggestions_not_strings :
  (run (chatting "[1, 2]" calm)
       (Search.get_search_suggestions toy_loads strict "" "docker" 2) fresh_world).1
  = Ok (Search.mkSuggestionsResponse ["docker tutorial"; "docker example"] "docker").
Proof. reflexivity. Qed.


(** * Further properties of the routes *)

Import Effects.

(** ** Effects of a coroutine on the state and on the log *)

Section EffectLemmas.

Context (env : oracle).

Lemma run_never_writes {R} (c : coro R) w :
  never_writes c -> st (run env c w).2 = st w.
Proof.
  revert w. induction c as [r|e|k IH|s' k IH|o k IH]; simpl; intros w H; auto.
  - contradiction.
  - rewrite IH; auto.
Qed.

Lemma run_log_grows {R} (c : coro R) w :
  exists l, log (run env c w).2 = log w ++ l.
Proof.
  revert w. induction c as [r|e|k IH|s' k IH|o k IH]; simpl; intros w.
  - exists []. by rewrite app_nil_r.
  - exists []. by rewrite app_nil_r.
  - apply IH.
  - apply (IH (set_st s' w)).
  - destruct (IH (env (clock w) o) (record o (is_ok (env (clock w) o)) w)) as [l Hl].
    rewrite Hl. simpl. rewrite <- app_assoc. eauto.
Qed.

Lemma run_calls_only {R} P (c : coro R) w :
  calls_only P c ->
  Forall (fun e => P (ev_op e) = true) (new_events w (run env c w).2).
Proof.
  unfold new_events. revert w.
  induction c as [r|e|k IH|s' k IH|o k IH]; simpl; intros w H.
  - rewrite drop_all. constructor.
  - rewrite drop_all. constructor.
  - apply IH, H.
  - apply (IH (set_st s' w)), H.
  - destruct H as [Ho Hk].
    specialize (IH (env (clock w) o) (record o (is_ok (env (clock w) o)) w) (Hk _)).
    destruct (run_log_grows (k (env (clock w) o)) (record o (is_ok (env (clock w) o)) w))
      as [l Hl].
    rewrite Hl in *. simpl in *.
    rewrite <- app_assoc. rewrite drop_app_length.
    rewrite length_app in IH. simpl in IH.
    replace (length (log w) + 1)%nat with (length (log w ++ [Ev o (is_ok (env (clock w) o))]))
      in IH by (rewrite length_app; reflexivity).
    rewrite drop_app_length in IH. simpl. constructor; auto.
Qed.

End EffectLemmas.

Lemma never_writes_preserves {R} (I : state -> Prop) (c : coro R) s :
  never_writes c -> preserves I c s.
Proof.
  revert s. induction c as [r|e|k IH|s' k IH|o k IH]; simpl; intros s H; auto.
  contradiction.
Qed.

(** The streaming loop keeps whatever its commands keep. *)
Lemma stream_preserves_by (Inv : state -> Prop) websocket session page :
  (forall data s, Inv s -> preserves Inv (dispatch websocket session page data) s) ->
  forall script streaming s,
    Inv s -> preserves Inv (stream script websocket session page streaming) s.
Proof.
  intros Hd. induction script as [|t script IH]; intros streaming s Hs; [exact I|].
  destruct t; cbn [stream].
  - destruct streaming; [|auto].
    apply preserves_bind; auto.
    apply preserves_attempt; auto.
    apply never_writes_preserves. unfold stream_iteration, call. simpl.
    repeat (intros [?|?]; simpl; auto).
  - apply preserves_bind; auto.
    + apply preserves_attempt; auto.
      apply preserves_bind; auto.
      unfold call; simpl. intros [a|e] s' Hs'; exact I.
    + intros [a|e] s' Hs'; auto.
      destruct (is_WebSocketDisconnect e); exact I.
Qed.

Ltac quiet_step :=
  match goal with
  | |- True => exact I
  | |- forall _, _ => intro
  | |- never_writes ?c =>
      match c with
      | context [match ?x with _ => _ end] => destruct x
      end
  end.

Ltac quiet := repeat (simpl; quiet_step).

(** X1: every REST route keyed by a session id answers an id that is not in
    the store with 404 "Session not found"; it calls nothing and changes
    nothing. *)
Theorem unknown_session_is_404 (env : oracle) w r session_id :
  keyed r = Some session_id ->
  dict_get session_id (sessions (st w)) = None ->
  run env (serve r) w = (Exc (http_error 404 "Session not found"), w).
Proof.
  intros Hk Hl. destruct r; simpl in Hk; try discriminate; injection Hk as ->;
    unfold serve; unfold_routes; simpl; rewrite Hl; reflexivity.
Qed.

Lemma unknown_session_is_404_witness :
  keyed (Scroll "s0" (mkScrollRequest (0, 0) (3, 0))) = Some "s0" /\
  dict_get "s0" (sessions (st (one_session ABC 0))) = None /\
  run calm (serve (Scroll "s0" (mkScrollRequest (0, 0) (3, 0)))) (one_session ABC 0)
    = (Exc (http_error 404 "Session not found"), one_session ABC 0).
Proof.
  split; [reflexivity|]. split; [reflexivity|].
  exact (unknown_session_is_404 calm (one_session ABC 0)
           (Scroll "s0" (mkScrollRequest (0, 0) (3, 0))) "s0" eq_refl eq_refl).
Defined.

Lemma passes_through_never_writes r : passes_through r = true -> never_writes (serve r).
Proof.
  destruct r; simpl; try discriminate; intros _; unfold serve; unfold_routes; quiet.
Qed.

(** X2: the status, refresh, screenshot, click, type, keypress and scroll
    routes leave the state as it was, whatever the page answers and whether
    they return or raise. *)
Theorem pass_through_routes_change_nothing (env : oracle) w r :
  passes_through r = true -> st (run env (serve r) w).2 = st w.
Proof. intros H. apply run_never_writes. by apply passes_through_never_writes. Qed.

Lemma pass_through_routes_change_nothing_witness :
  passes_through (Refresh "s1") = true /\
  st (run (failing is_title target_closed calm) (serve (GetSessionStatus "s1"))
        (one_session ABC 1)).2 = st (one_session ABC 1) /\
  st (run calm (serve (Refresh "s1")) (one_session ABC 1)).2 = st (one_session ABC 1).
Proof.
  split; [reflexivity|].
  split; [exact (pass_through_routes_change_nothing _ (one_session ABC 1)
                   (GetSessionStatus "s1") eq_refl)|].
  exact (pass_through_routes_change_nothing calm (one_session ABC 1) (Refresh "s1") eq_refl).
Defined.

(** ** Which requests change what *)

Ltac keep_step inv_tac :=
  match goal with
  | |- True => exact I
  | |- ?P /\ _ =>
      let H := fresh "Hk" in
      assert (H : P); [ inv_tac | split; [exact H|] ]
  | |- forall _, _ => intro
  | |- preserves _ ?c _ =>
      match c with
      | context [match ?x with _ => _ end] => destruct x eqn:?
      end
  end.

Ltac same_store_tac :=
  repeat match goal with
         | H : same_store _ _ |- _ => destruct H as (? & ? & ? & ?)
         end;
  unfold same_store; simpl; rewrite ?length_insert; repeat split; congruence.

Ltac apart_tac :=
  repeat match goal with
         | H : apart _ _ _ _ |- _ => destruct H as [(? & ? & ? & ?) ?]
         end;
  unfold apart, same_store; simpl; rewrite ?length_insert;
  repeat split; try assumption; try congruence;
  rewrite list_lookup_insert_ne; [assumption|congruence].

Ltac holds_at_tac :=
  unfold holds_at in *; simpl; try apply lookup_app_l_Some; assumption.

Lemma same_store_refl s : same_store s s.
Proof. unfold same_store. auto. Qed.

Lemma serve_keeps_same_store s0 r s :
  manages_store r = false -> same_store s0 s -> preserves (same_store s0) (serve r) s.
Proof.
  intros Hr Hs. destruct r; try discriminate; unfold serve.
  1-10: unfold_routes; repeat (simpl; keep_step same_store_tac).
  - unfold discard, websocket_endpoint.
    apply preserves_bind; [assumption| |intros; exact I].
    apply preserves_bind; [assumption|unfold call; simpl; intros [a|e] s' Hs'; exact I|].
    intros _ s1 Hs1. apply preserves_bind; [assumption|exact I|].
    intros [l|] s2 Hs2.
    + apply preserves_bind; [assumption| |].
      * unfold_routes. repeat (simpl; keep_step same_store_tac).
      * intros. apply stream_preserves_by; auto.
        intros. unfold_routes. repeat (simpl; keep_step same_store_tac).
    + unfold_routes. repeat (simpl; keep_step same_store_tac).
  - unfold_routes. repeat (simpl; keep_step same_store_tac).
Qed.

(** X3: only [create_session], [close_session] and cleanup change which
    sessions exist or which engine the manager holds: every other request,
    a whole WebSocket connection included, leaves the [sessions] dict, the
    two engine handles and the number of session dicts as they were. *)
Theorem other_routes_keep_the_store (env : oracle) w r :
  manages_store r = false -> same_store (st w) (st (run env (serve r) w).2).
Proof.
  intros Hr. apply (preserves_run (same_store (st w))); [apply same_store_refl|].
  apply serve_keeps_same_store; auto using same_store_refl.
Qed.

Lemma other_routes_keep_the_store_witness :
  manages_store (WebSocket 9%nat "s1" [Consumer; Producer; Consumer]) = false /\
  same_store (st (one_session ABC 2))
    (st (run (sending (navigate_frame "D") calm)
           (serve (WebSocket 9%nat "s1" [Consumer; Producer; Consumer]))
           (one_session ABC 2)).2).
Proof.
  split; [reflexivity|].
  exact (other_routes_keep_the_store (sending (navigate_frame "D") calm) (one_session ABC 2)
           (WebSocket 9%nat "s1" [Consumer; Producer; Consumer]) eq_refl).
Defined.

Lemma serve_keeps_apart s0 l x r s :
  manages_store r = false -> touches r s0 <> Some l ->
  apart s0 l x s -> preserves (apart s0 l x) (serve r) s.
Proof.
  intros Hr Ht Hs. destruct r; try discriminate; unfold serve; simpl in Ht.
  1-10: unfold_routes; repeat (simpl; keep_step apart_tac).
  - unfold discard, websocket_endpoint.
    apply preserves_bind; [assumption| |intros; exact I].
    apply preserves_bind; [assumption|unfold call; simpl; intros [a|e] s' Hs'; exact I|].
    intros _ s1 Hs1. unfold BrowserSessionManager.get_session, get. simpl.
    destruct (dict_get session_id (sessions s1)) as [l0|] eqn:E.
    + assert (l0 <> l) by (destruct Hs1 as [(? & _) _]; congruence).
      apply preserves_bind; [assumption| |].
      * unfold_routes. repeat (simpl; keep_step apart_tac).
      * intros. apply stream_preserves_by; auto.
        intros. unfold_routes. repeat (simpl; keep_step apart_tac).
    + unfold_routes. repeat (simpl; keep_step apart_tac).
  - unfold_routes. repeat (simpl; keep_step apart_tac).
Qed.

Lemma manager_close_session_keeps_dicts l x session_id s :
  holds_at l x s ->
  preserves (holds_at l x) (BrowserSessionManager.close_session session_id) s.
Proof. intros Hs. unfold_routes. repeat (simpl; keep_step holds_at_tac). Qed.

Lemma serve_keeps_dicts l x r s :
  manages_store r = true -> holds_at l x s -> preserves (holds_at l x) (serve r) s.
Proof.
  intros Hr Hs. destruct r; try discriminate; unfold serve.
  - unfold_routes. repeat (simpl; keep_step holds_at_tac).
  - unfold_routes. repeat (simpl; keep_step holds_at_tac).
  - unfold cleanup_sessions, BrowserSessionManager.cleanup.
    apply preserves_bind; [assumption|exact I|]. intros self s1 Hs1.
    apply preserves_bind; [assumption| |].
    { apply preserves_for_each; auto.
      intros; by apply manager_close_session_keeps_dicts. }
    intros _ s2 Hs2. unfold_routes. repeat (simpl; keep_step holds_at_tac).
Qed.

(** X4: a request writes to no session dict but its own.  The navigate,
    back and forward routes and a WebSocket connection write to the dict
    their id names, a frame to the dict of its connection, every other
    request to none; all other dicts are after the request what they were
    before it, whatever the browser answers. *)
Theorem requests_leave_other_sessions (env : oracle) w r l x :
  touches r (st w) <> Some l ->
  heap (st w) !! l = Some x ->
  heap (st (run env (serve r) w).2) !! l = Some x.
Proof.
  intros Ht Hl. destruct (manages_store r) eqn:Hr.
  - apply (preserves_run (holds_at l x)); [exact Hl|].
    by apply serve_keeps_dicts.
  - assert (Ha : apart (st w) l x (st w)) by (split; [apply same_store_refl|exact Hl]).
    apply (preserves_run (apart (st w) l x)) with (env := env) (c := serve r) in Ha.
    + apply Ha.
    + by apply serve_keeps_apart.
Qed.

Lemma requests_leave_other_sessions_witness :
  touches (Navigate "s1" (mkNavigateRequest "D")) (st two_sessions) <> Some 1%nat /\
  heap (st two_sessions) !! 1%nat = Some (mkSession 3%nat 4%nat 0 [] (-1)) /\
  heap (st (run calm (serve (Navigate "s1" (mkNavigateRequest "D"))) two_sessions).2) !! 1%nat
    = Some (mkSession 3%nat 4%nat 0 [] (-1)).
Proof.
  assert (H1 : touches (Navigate "s1" (mkNavigateRequest "D")) (st two_sessions) <> Some 1%nat)
    by (vm_compute; discriminate).
  assert (H2 : heap (st two_sessions) !! 1%nat = Some (mkSession 3%nat 4%nat 0 [] (-1)))
    by reflexivity.
  split; [exact H1|]. split; [exact H2|].
  exact (requests_leave_other_sessions calm two_sessions _ _ _ H1 H2).
Defined.

(** ** The history cursor *)

Local Opaque Z.gtb Z.ltb.

Lemma run_discard {A} (env : oracle) (c : coro A) w :
  (run env (discard c) w).2 = (run env c w).2.
Proof. unfold discard. rewrite run_bind. by destruct (run env c w) as [[a|e] w']. Qed.

(** The REST handler of a direction. *)
Local Abbreviation move_handler d session_id :=
  (match d with Back => go_back session_id | Forward => go_forward session_id end).

Lemma route_move_at_boundary (env : oracle) w d session_id l x :
  dict_get session_id (sessions (st w)) = Some l ->
  heap (st w) !! l = Some x ->
  can_move d x = false ->
  run env (move_handler d session_id) w = (Ok (no_move d), w).
Proof.
  intros Hl Hx Hc. destruct d; simpl in Hc |- *; unfold_routes; run_through; reflexivity.
Qed.

Lemma frame_move_at_boundary (env : oracle) w d websocket l page x :
  heap (st w) !! l = Some x ->
  can_move d x = false ->
  run env (dispatch websocket l page (move_frame d)) w = (Ok tt, w).
Proof.
  intros Hx Hc. destruct d; simpl in Hc |- *; unfold_routes; run_through; reflexivity.
Qed.

(** X5: with nothing to go back (forward) to, neither route does anything:
    the REST route answers [no_history] ([no_forward_history]), the WebSocket
    frame is dropped, no call reaches the page and the cursor stays. *)
Theorem move_at_boundary_does_nothing (env : oracle) w d websocket session_id l x :
  dict_get session_id (sessions (st w)) = Some l ->
  heap (st w) !! l = Some x ->
  can_move d x = false ->
  run env (move_handler d session_id) w = (Ok (no_move d), w) /\
  run env (dispatch websocket l (page x) (move_frame d)) w = (Ok tt, w).
Proof.
  intros Hl Hx Hc. split.
  - by eapply route_move_at_boundary.
  - by eapply frame_move_at_boundary.
Qed.

Lemma move_at_boundary_does_nothing_witness :
  dict_get "s1" (sessions (st (one_session ABC 2))) = Some 0%nat /\
  heap (st (one_session ABC 2)) !! 0%nat = Some (mkSession 1%nat 2%nat 0 ABC 2) /\
  can_move Forward (mkSession 1%nat 2%nat 0 ABC 2) = false /\
  run calm (go_forward "s1") (one_session ABC 2)
    = (Ok (no_move Forward), one_session ABC 2) /\
  run calm (dispatch 9%nat 0%nat 2%nat (move_frame Forward)) (one_session ABC 2)
    = (Ok tt, one_session ABC 2).
Proof.
  do 3 (split; [reflexivity|]).
  exact (move_at_boundary_does_nothing calm (one_session ABC 2) Forward 9%nat "s1" 0%nat
             (mkSession 1%nat 2%nat 0 ABC 2) eq_refl eq_refl eq_refl).
Defined.

(** Where a handler that moved the cursor leaves the world when the page
    then raises. *)
Lemma route_move_raises (env : oracle) w d session_id l x e :
  dict_get session_id (sessions (st w)) = Some l ->
  heap (st w) !! l = Some x ->
  can_move d x = true ->
  env (clock w) (page_move d (page x)) = Exc e ->
  run env (move_handler d session_id) w
    = (Exc e, record (page_move d (page x)) false (with_dict l (moved d x) w)).
Proof.
  intros Hl Hx Hc He. destruct d; simpl in Hc, He |- *; unfold_routes; run_through;
    reflexivity.
Qed.

Lemma frame_move_raises (env : oracle) w d websocket l x e :
  heap (st w) !! l = Some x ->
  can_move d x = true ->
  env (clock w) (page_move d (page x)) = Exc e ->
  run env (dispatch websocket l (page x) (move_frame d)) w
    = (Exc e, record (page_move d (page x)) false (with_dict l (moved d x) w)).
Proof.
  intros Hx Hc He. destruct d; simpl in Hc, He |- *; unfold_routes; run_through;
    reflexivity.
Qed.

(** X6: both routes move the cursor before they ask the page to move, and
    neither takes the write back: when [page.go_back()] ([go_forward()])
    raises, the exception leaves the handler as it is and the cursor stays
    one step off the page. *)
Theorem cursor_moves_before_the_page (env : oracle) w d websocket session_id l x e :
  dict_get session_id (sessions (st w)) = Some l ->
  heap (st w) !! l = Some x ->
  can_move d x = true ->
  env (clock w) (page_move d (page x)) = Exc e ->
  run env (move_handler d session_id) w
    = (Exc e, record (page_move d (page x)) false (with_dict l (moved d x) w)) /\
  run env (dispatch websocket l (page x) (move_frame d)) w
    = (Exc e, record (page_move d (page x)) false (with_dict l (moved d x) w)).
Proof.
  intros Hl Hx Hc He. split.
  - by apply route_move_raises.
  - by apply frame_move_raises.
Qed.

Lemma cursor_moves_before_the_page_witness :
  let env := failing (is_page_move Back) target_closed calm in
  let x := mkSession 1%nat 2%nat 0 ABC 2 in
  let w := one_session ABC 2 in
  dict_get "s1" (sessions (st w)) = Some 0%nat /\
  heap (st w) !! 0%nat = Some x /\
  can_move Back x = true /\
  env (clock w) (page_move Back (page x)) = Exc target_closed /\
  run env (go_back "s1") w
    = (Exc target_closed, record (PageGoBack 2%nat) false (with_dict 0%nat (moved Back x) w)) /\
  run env (dispatch 9%nat 0%nat 2%nat (move_frame Back)) w
    = (Exc target_closed, record (PageGoBack 2%nat) false (with_dict 0%nat (moved Back x) w)).
Proof.
  cbv zeta. do 4 (split; [reflexivity|]).
  exact (cursor_moves_before_the_page
             (failing (is_page_move Back) target_closed calm) (one_session ABC 2) Back 9%nat
             "s1" 0%nat (mkSession 1%nat 2%nat 0 ABC 2) target_closed
             eq_refl eq_refl eq_refl eq_refl).
Defined.

(** The state a move leaves, whatever the page answers. *)
Lemma route_move_state (env : oracle) w d session_id l x :
  dict_get session_id (sessions (st w)) = Some l ->
  heap (st w) !! l = Some x ->
  can_move d x = true ->
  st (run env (serve (move_route d session_id)) w).2
    = set_heap (<[l := moved d x]> (heap (st w))) (st w).
Proof.
  intros Hl Hx Hc. destruct d; simpl in Hc |- *; unfold_routes; run_through;
    repeat match goal with
           | |- context [env ?n ?o] => destruct (env n o); simpl
           end; reflexivity.
Qed.

Lemma frame_move_state (env : oracle) w d websocket l page x :
  heap (st w) !! l = Some x ->
  can_move d x = true ->
  st (run env (dispatch websocket l page (move_frame d)) w).2
    = set_heap (<[l := moved d x]> (heap (st w))) (st w).
Proof.
  intros Hx Hc. destruct d; simpl in Hc |- *; unfold_routes; run_through;
    repeat match goal with
           | |- context [env ?n ?o] => destruct (env n o); simpl
           end; reflexivity.
Qed.

Lemma run_discard_move (env : oracle) w d session_id :
  (run env (serve (move_route d session_id)) w).2 = (run env (move_handler d session_id) w).2.
Proof. destruct d; apply run_discard. Qed.

(** X7: on back and forward the two routes agree: the REST route and a
    WebSocket frame of the same direction leave the same state, whatever
    the page answers to either. *)
Theorem rest_and_websocket_moves_agree (env1 env2 : oracle) w d websocket page session_id l :
  dict_get session_id (sessions (st w)) = Some l ->
  st (run env1 (serve (move_route d session_id)) w).2
    = st (run env2 (serve (Frame websocket l page (move_frame d))) w).2.
Proof.
  intros Hl. destruct (heap (st w) !! l) as [x|] eqn:Hx.
  - destruct (can_move d x) eqn:Hc.
    + rewrite (route_move_state env1 w d session_id l x) by assumption.
      simpl. by rewrite (frame_move_state env2 w d websocket l page x).
    + rewrite run_discard_move. simpl.
      rewrite (route_move_at_boundary env1 w d session_id l x) by assumption.
      by rewrite (frame_move_at_boundary env2 w d websocket l page x).
  - destruct d; simpl; unfold_routes; run_through; reflexivity.
Qed.

Lemma rest_and_websocket_moves_agree_witness :
  dict_get "s1" (sessions (st (one_session ABC 1))) = Some 0%nat /\
  st (run calm (serve (move_route Back "s1")) (one_session ABC 1)).2
    = st (run (failing (is_page_move Back) target_closed calm)
            (serve (Frame 9%nat 0%nat 2%nat (move_frame Back))) (one_session ABC 1)).2.
Proof.
  split; [reflexivity|].
  exact (rest_and_websocket_moves_agree calm (failing (is_page_move Back) target_closed calm)
           (one_session ABC 1) Back 9%nat 2%nat "s1" 0%nat eq_refl).
Defined.

Lemma moved_there_and_back d x :
  can_move d x = true -> moved (opposite d) (moved d x) = x.
Proof.
  intros _. destruct x as [c p t h i]. destruct d; unfold moved, set_history_index; simpl;
    f_equal; lia.
Qed.

Lemma set_heap_back l x y s :
  heap s !! l = Some x ->
  set_heap (<[l := x]> (heap (set_heap (<[l := y]> (heap s)) s))) (set_heap (<[l := y]> (heap s)) s)
    = s.
Proof.
  intros Hx. destruct s as [d pw b h]. unfold set_heap. simpl in *.
  rewrite list_insert_insert_eq, list_insert_id; auto.
Qed.

(** X8: a move and the opposite move, one request after the other, leave
    the state as it was, whatever the page answers to either (even when it
    raises): the tracker does its own arithmetic and never asks the page
    where it is. *)
Theorem move_and_back_restores (env : oracle) w d session_id l x :
  dict_get session_id (sessions (st w)) = Some l ->
  heap (st w) !! l = Some x ->
  can_move d x = true ->
  can_move (opposite d) (moved d x) = true ->
  st (serve_all env [move_route d session_id; move_route (opposite d) session_id] w) = st w.
Proof.
  intros Hl Hx Hc Hc'. unfold serve_all. cbn [fold_left].
  pose proof (route_move_state env w d session_id l x Hl Hx Hc) as H1.
  rewrite (route_move_state env _ (opposite d) session_id l (moved d x)); auto.
  - rewrite H1. rewrite moved_there_and_back by assumption. by apply set_heap_back.
  - rewrite H1. simpl. exact Hl.
  - rewrite H1. simpl. by eapply lookup_insert_same.
Qed.

Lemma move_and_back_restores_witness :
  let w := one_session ABC 2 in
  let x := mkSession 1%nat 2%nat 0 ABC 2 in
  let env := failing (is_page_move Back) target_closed calm in
  dict_get "s1" (sessions (st w)) = Some 0%nat /\
  heap (st w) !! 0%nat = Some x /\
  can_move Back x = true /\
  can_move (opposite Back) (moved Back x) = true /\
  st (serve_all env [move_route Back "s1"; move_route (opposite Back) "s1"] w) = st w.
Proof.
  cbv zeta. do 4 (split; [reflexivity|]).
  exact (move_and_back_restores (failing (is_page_move Back) target_closed calm)
           (one_session ABC 2) Back "s1" 0%nat (mkSession 1%nat 2%nat 0 ABC 2)
           eq_refl eq_refl eq_refl eq_refl).
Defined.

Lemma truthy_url u : u <> "" -> truthy (JStr u) = true.
Proof. intros Hu. simpl. by destruct (String.eqb_spec u ""). Qed.

(** X9: after a navigation that the page accepted there is nothing to go
    forward to, on either route: the cursor is on the last entry, and
    [go_forward] answers [no_forward_history] without a call to the page. *)
Theorem navigate_leaves_nothing_forward (env env' : oracle) w websocket session_id request l x r :
  dict_get session_id (sessions (st w)) = Some l ->
  heap (st w) !! l = Some x ->
  r = Navigate session_id request \/
    (r = Frame websocket l (page x) (navigate_frame (url request)) /\ url request <> "") ->
  env (clock w) (PageGoto (page x) (JStr (url request)) "domcontentloaded" 30000) = Ok tt ->
  run env' (go_forward session_id) (run env (serve r) w).2
    = (Ok (no_move Forward), (run env (serve r) w).2).
Proof.
  intros Hl Hx Hr Hg.
  assert (Hs : same_store (st w) (st (run env (serve r) w).2)).
  { apply (preserves_run (same_store (st w))); [apply same_store_refl|].
    apply serve_keeps_same_store; [|apply same_store_refl].
    by destruct Hr as [->|[-> _]]. }
  destruct Hs as (Hs & _).
  assert (Hy : exists y, heap (st (run env (serve r) w).2) !! l = Some y /\
                         can_move Forward y = false).
  { destruct Hr as [->|[-> Hu]].
    - exists (recorded (JStr (url request)) x). split; [|apply Z.ltb_irrefl].
      unfold serve. rewrite run_discard. by apply navigate_records.
    - exists (appended (JStr (url request)) x). split; [|apply Z.ltb_irrefl].
      apply dispatch_navigate_appends; auto using truthy_url. }
  destruct Hy as (y & Hy & Hc).
  apply (route_move_at_boundary env' _ Forward session_id l y); auto.
  by rewrite Hs.
Qed.

Lemma navigate_leaves_nothing_forward_witness :
  let w := one_session ABC 0 in
  let x := mkSession 1%nat 2%nat 0 ABC 0 in
  let r := Frame 9%nat 0%nat (page x) (navigate_frame "D") in
  dict_get "s1" (sessions (st w)) = Some 0%nat /\
  heap (st w) !! 0%nat = Some x /\
  calm (clock w) (PageGoto (page x) (JStr "D") "domcontentloaded" 30000) = Ok tt /\
  run calm (go_forward "s1") (run calm (serve r) w).2
    = (Ok (no_move Forward), (run calm (serve r) w).2).
Proof.
  cbv zeta. do 3 (split; [reflexivity|]).
  refine (navigate_leaves_nothing_forward calm calm (one_session ABC 0) 9%nat "s1"
            (mkNavigateRequest "D") 0%nat (mkSession 1%nat 2%nat 0 ABC 0) _
            eq_refl eq_refl (or_intror (conj eq_refl _)) eq_refl).
  discriminate.
Defined.

(** ** The session manager *)

Lemma dict_get_set_eq {V} k (v : V) d : dict_get k (dict_set k v d) = Some v.
Proof.
  induction d as [|[k' v'] d IH]; simpl.
  - by rewrite String.eqb_refl.
  - destruct (String.eqb k k') eqn:E; simpl; rewrite ?String.eqb_refl, ?E; auto.
Qed.

Lemma dict_get_set_ne {V} k k' (v : V) d :
  k' <> k -> dict_get k' (dict_set k v d) = dict_get k' d.
Proof.
  intros Hne. induction d as [|[k0 v0] d IH]; simpl.
  - by destruct (String.eqb_spec k' k).
  - destruct (String.eqb_spec k k0) as [->|Hk]; simpl.
    + destruct (String.eqb_spec k' k0); [contradiction|reflexivity].
    + by rewrite IH.
Qed.

(** Case analysis on the answers of the outside world, in program order. *)
Ltac answers env :=
  repeat (simpl;
          match goal with
          | |- context [env ?n ?o] => destruct (env n o) eqn:?
          | |- context [if is_Exception ?e then _ else _] => destruct (is_Exception e) eqn:?
          | |- context [match browser (st ?w) with _ => _ end] => destruct (browser (st w)) eqn:?
          end);
  simpl.

(** X10: a [create_session] that answers registers one new session under
    the id it returns: a dict with an empty history and the cursor at -1,
    created at the time reported, appended to the dicts there were; every
    other id names what it named before. *)
Theorem created_session_is_fresh (env : oracle) w resp w' :
  run env create_session w = (Ok resp, w') ->
  exists x,
    dict_get (csr_session_id resp) (sessions (st w')) = Some (length (heap (st w))) /\
    heap (st w') = heap (st w) ++ [x] /\
    history x = [] /\ history_index x = -1 /\ created_at x = csr_created_at resp /\
    forall id, id <> csr_session_id resp ->
               dict_get id (sessions (st w')) = dict_get id (sessions (st w)).
Proof.
  unfold_routes. simpl.
  destruct (playwright (st w)) as [pw|] eqn:Hpw; simpl.
  - destruct (env (clock w) Uuid4) as [id|e] eqn:Hid; simpl;
      [|destruct (is_Exception e); discriminate].
    destruct (browser (st w)) as [b|]; simpl; [|discriminate].
    answers env; try discriminate.
    rewrite dict_get_set_eq. simpl. rewrite list_lookup_middle by reflexivity. simpl.
    intros [= <- <-]. simpl. eexists. split; [apply dict_get_set_eq|].
    do 4 (split; [reflexivity|]). intros id' Hne. by apply dict_get_set_ne.
  - destruct (env (clock w) AsyncPlaywrightStart) as [pw|e] eqn:Hpw'; simpl;
      [|destruct (is_Exception e); discriminate].
    destruct (env (S (clock w)) (ChromiumLaunch pw true BrowserSessionManager.launch_args))
      as [b|e] eqn:Hb; simpl; [|destruct (is_Exception e); discriminate].
    answers env; try discriminate.
    rewrite dict_get_set_eq. simpl. rewrite list_lookup_middle by reflexivity. simpl.
    intros [= <- <-]. simpl. eexists. split; [apply dict_get_set_eq|].
    do 4 (split; [reflexivity|]). intros id' Hne. by apply dict_get_set_ne.
Qed.

Lemma created_session_is_fresh_witness :
  let out := run calm create_session two_sessions in
  exists resp,
    out = (Ok resp, out.2) /\
    exists x,
      dict_get (csr_session_id resp) (sessions (st out.2)) = Some 2%nat /\
      heap (st out.2) = heap (st two_sessions) ++ [x] /\
      history x = [] /\ history_index x = -1 /\ created_at x = csr_created_at resp /\
      forall id, id <> csr_session_id resp ->
                 dict_get id (sessions (st out.2)) = dict_get id (sessions (st two_sessions)).
Proof.
  cbv zeta. eexists. split; [reflexivity|].
  exact (created_session_is_fresh calm two_sessions _ _ eq_refl).
Defined.

Ltac calls_step :=
  match goal with
  | |- True => exact I
  | |- _ = true /\ _ => split; [reflexivity|]
  | |- forall _, _ => intro
  | |- calls_only _ ?c =>
      match c with
      | context [match ?x with _ => _ end] => destruct x
      end
  end.

Ltac calls := repeat (simpl; calls_step).

Lemma create_session_closes_nothing :
  calls_only (fun o => negb (is_shutdown_call o)) create_session.
Proof. unfold_routes. calls. Qed.

(** X11: a [create_session] that fails registers nothing: the [sessions]
    dict and the session dicts are as before, and nothing was closed, so a
    context that was opened before the failure stays open and unowned.  An
    [Exception] reaches the client as a 500. *)
Theorem failed_create_registers_nothing (env : oracle) w e w' :
  run env create_session w = (Exc e, w') ->
  sessions (st w') = sessions (st w) /\
  heap (st w') = heap (st w) /\
  (is_Exception e = true -> exn_cls e = HTTPException 500) /\
  Forall (fun ev => is_shutdown_call (ev_op ev) = false) (new_events w w').
Proof.
  intros Hrun.
  assert (Hlog : Forall (fun ev => is_shutdown_call (ev_op ev) = false) (new_events w w')).
  { pose proof (run_calls_only env _ create_session w create_session_closes_nothing) as H.
    rewrite Hrun in H. simpl in H. eapply Forall_impl; [exact H|].
    simpl. intros ev Hev. by apply negb_true_iff. }
  revert Hrun. unfold_routes. simpl.
  destruct (playwright (st w)) as [pw|] eqn:Hpw; simpl;
    answers env; rewrite ?dict_get_set_eq; simpl;
    rewrite ?list_lookup_middle by reflexivity; simpl;
    first [discriminate
          | intros [= <- <-]; repeat split; simpl; auto; congruence].
Qed.

Lemma failed_create_registers_nothing_witness :
  let env :=
    failing (fun o => match o with ContextNewPage _ => true | _ => false end)
      target_closed calm in
  let out := run env create_session two_sessions in
  out.1 = Exc (http_error 500 (exn_str target_closed)) /\
  sessions (st out.2) = sessions (st two_sessions) /\
  heap (st out.2) = heap (st two_sessions) /\
  Forall (fun ev => is_shutdown_call (ev_op ev) = false) (new_events two_sessions out.2).
Proof.
  cbv zeta. split; [reflexivity|].
  pose proof (failed_create_registers_nothing
                (failing (fun o => match o with ContextNewPage _ => true | _ => false end)
                   target_closed calm)
                two_sessions _ _ eq_refl) as (H1 & H2 & _ & H4).
  auto.
Defined.

(** ** The engine *)











(** ** Which page a request talks to *)

Lemma run_calls_from {R} (env : oracle) P (c : coro R) w :
  calls_from P c (st w) ->
  Forall (fun e => P (ev_op e) = true) (new_events w (run env c w).2).
Proof.
  unfold new_events. revert w.
  induction c as [r|e|k IH|s' k IH|o k IH]; simpl; intros w H.
  - rewrite drop_all. constructor.
  - rewrite drop_all. constructor.
  - apply IH, H.
  - apply (IH (set_st s' w)), H.
  - destruct H as [Ho Hk].
    specialize (IH (env (clock w) o) (record o (is_ok (env (clock w) o)) w) (Hk _)).
    destruct (run_log_grows env (k (env (clock w) o)) (record o (is_ok (env (clock w) o)) w))
      as [l Hl].
    rewrite Hl in *. simpl in *.
    rewrite <- app_assoc. rewrite drop_app_length.
    rewrite length_app in IH. simpl in IH.
    replace (length (log w) + 1)%nat with (length (log w ++ [Ev o (is_ok (env (clock w) o))]))
      in IH by (rewrite length_app; reflexivity).
    rewrite drop_app_length in IH. simpl. constructor; auto.
Qed.

Lemma calls_only_from {R} P (c : coro R) s : calls_only P c -> calls_from P c s.
Proof.
  revert s. induction c as [r|e|k IH|s' k IH|o k IH]; simpl; intros s H; auto.
  destruct H; split; auto.
Qed.

Lemma calls_from_bind {A B} P (c : coro A) (f : A -> coro B) s :
  calls_from P c s -> (forall a s', calls_from P (f a) s') -> calls_from P (bind c f) s.
Proof.
  revert s. induction c as [r|e|k IH|s' k IH|o k IH]; simpl; intros s Hc Hf; auto.
  destruct Hc; split; auto.
Qed.

Ltac reach_step :=
  match goal with
  | |- True => exact I
  | |- _ = true /\ _ =>
      split; [simpl; rewrite ?Nat.eqb_refl, ?orb_true_r; reflexivity|]
  | |- forall _, _ => intro
  | H : dict_get _ _ = _ |- _ => rewrite H
  | H : _ !! _ = Some _ |- _ => rewrite H
  | |- _ => erewrite lookup_insert_same
              by (repeat (erewrite lookup_insert_same by eauto); eauto)
  | |- calls_from _ ?c _ =>
      match c with
      | context [match ?x with _ => _ end] => destruct x eqn:?
      end
  | |- calls_only _ ?c =>
      match c with
      | context [match ?x with _ => _ end] => destruct x eqn:?
      end
  end.

Ltac reach := repeat (simpl; reach_step).

Lemma dispatch_reaches websocket session page data :
  calls_only (fun o => on_page page o || on_socket websocket o || is_sleep o)
    (dispatch websocket session page data).
Proof. unfold_routes. reach. Qed.

Lemma calls_only_bind {A B} P (c : coro A) (f : A -> coro B) :
  calls_only P c -> (forall a, calls_only P (f a)) -> calls_only P (bind c f).
Proof.
  induction c as [r|e|k IH|s' k IH|o k IH]; simpl; intros Hc Hf; auto.
  destruct Hc; split; auto.
Qed.

Lemma calls_only_catch {A} P (c : coro A) (h : exn -> coro A) :
  calls_only P c -> (forall e, calls_only P (h e)) -> calls_only P (catch c h).
Proof.
  induction c as [r|e|k IH|s' k IH|o k IH]; simpl; intros Hc Hh; auto.
  destruct Hc; split; auto.
Qed.

Lemma calls_only_attempt {A} P (c : coro A) : calls_only P c -> calls_only P (attempt c).
Proof.
  intros Hc. unfold attempt. apply calls_only_catch.
  - apply calls_only_bind; simpl; auto.
  - simpl; auto.
Qed.

Lemma stream_reaches script websocket session page streaming :
  calls_only (fun o => on_page page o || on_socket websocket o || is_sleep o)
    (stream script websocket session page streaming).
Proof.
  revert streaming. induction script as [|t script IH]; intros streaming; [exact I|].
  destruct t; cbn [stream].
  - destruct streaming; [|auto].
    apply calls_only_bind; auto.
    apply calls_only_attempt. unfold_routes. reach.
  - apply calls_only_bind.
    + apply calls_only_attempt. apply calls_only_bind.
      * unfold call. reach.
      * intros. apply dispatch_reaches.
    + intros [a|e]; auto. destruct (is_WebSocketDisconnect e); exact I.
Qed.

(** X14: a request for a session talks to the page of that session and to
    no other: every call a REST route makes is a call on that page, and
    every call of a WebSocket connection is one on that page, one on its
    own socket, or the sleep between two screenshots.  No request drives
    the page of another session. *)
Theorem requests_drive_their_own_page (env : oracle) w r session_id l x :
  page_user r = Some session_id ->
  dict_get session_id (sessions (st w)) = Some l ->
  heap (st w) !! l = Some x ->
  Forall (fun e => reaches r (page x) (ev_op e) = true) (new_events w (run env (serve r) w).2).
Proof.
  intros Hr Hl Hx. apply run_calls_from.
  destruct r; try discriminate; injection Hr as ->; unfold serve, reaches.
  1-10: unfold_routes; reach.
  unfold discard, websocket_endpoint. apply calls_from_bind; [|intros; exact I].
  unfold_routes. reach.
  apply calls_only_from, stream_reaches.
Qed.

Lemma requests_drive_their_own_page_witness :
  let r := WebSocket 9%nat "s2" [Producer; Consumer; Producer] in
  let env := sending (navigate_frame "D") calm in
  page_user r = Some "s2" /\
  dict_get "s2" (sessions (st two_sessions)) = Some 1%nat /\
  heap (st two_sessions) !! 1%nat = Some (mkSession 3%nat 4%nat 0 [] (-1)) /\
  Forall (fun e => reaches r 4%nat (ev_op e) = true)
    (new_events two_sessions (run env (serve r) two_sessions).2).
Proof.
  cbv zeta. do 3 (split; [reflexivity|]).
  exact (requests_drive_their_own_page (sending (navigate_frame "D") calm) two_sessions
           (WebSocket 9%nat "s2" [Producer; Consumer; Producer]) "s2" 1%nat
           (mkSession 3%nat 4%nat 0 [] (-1)) eq_refl eq_refl eq_refl).
Defined.

(** ** Closing a session *)

(** X15: two [close_session] requests for the same session that overlap
    both pass the membership test and both close the context; the first to
    be resumed deletes the key and answers, the second finds the key gone
    and fails with a [KeyError], which reaches the client as it is. *)
Theorem overlapping_closes_raise_KeyError (env : oracle) w session_id l x :
  dict_get session_id (sessions (st w)) = Some l ->
  heap (st w) !! l = Some x ->
  env (clock w) (ContextClose (context x)) = Ok tt ->
  env (S (clock w)) (ContextClose (context x)) = Ok tt ->
  let after :=
    exec_schedule env both_close
      ([Runnable (close_session session_id); Runnable (close_session session_id)], w) in
  map finished after.1
    = [Some (Ok (JObj [("status", JStr "closed")])); Some (Exc (KeyError session_id))] /\
  log after.2 = log w ++ [Ev (ContextClose (context x)) true; Ev (ContextClose (context x)) true] /\
  sessions (st after.2) = dict_del session_id (sessions (st w)).
Proof.
  intros Hl Hx H0 H1. unfold exec_schedule, both_close. cbn [fold_left].
  unfold_routes. run_through. rewrite dict_get_del. simpl.
  rewrite <- app_assoc. auto.
Qed.

Lemma overlapping_closes_raise_KeyError_witness :
  let w := one_session ABC 0 in
  let after :=
    exec_schedule calm both_close
      ([Runnable (close_session "s1"); Runnable (close_session "s1")], w) in
  dict_get "s1" (sessions (st w)) = Some 0%nat /\
  heap (st w) !! 0%nat = Some (mkSession 1%nat 2%nat 0 ABC 0) /\
  calm (clock w) (ContextClose 1%nat) = Ok tt /\
  calm (S (clock w)) (ContextClose 1%nat) = Ok tt /\
  map finished after.1
    = [Some (Ok (JObj [("status", JStr "closed")])); Some (Exc (KeyError "s1"))] /\
  log after.2 = log w ++ [Ev (ContextClose 1%nat) true; Ev (ContextClose 1%nat) true] /\
  sessions (st after.2) = dict_del "s1" (sessions (st w)).
Proof.
  cbv zeta. do 4 (split; [reflexivity|]).
  exact (overlapping_closes_raise_KeyError calm (one_session ABC 0) "s1" 0%nat
           (mkSession 1%nat 2%nat 0 ABC 0) eq_refl eq_refl eq_refl eq_refl).
Defined.

Lemma dict_get_del_ne {V} k k' (d : list (string * V)) :
  k' <> k -> dict_get k' (dict_del k d) = dict_get k' d.
Proof.
  intros Hne. unfold dict_del. induction d as [|[k0 v0] d IH]; simpl; auto.
  destruct (String.eqb_spec k k0) as [->|Hk]; simpl.
  - destruct (String.eqb_spec k' k0); [contradiction|auto].
  - by rewrite IH.
Qed.

(** X16: the REST [close_session] on a session that exists closes its
    context once.  If that returns, the key is deleted, every other id
    names what it named, and the answer is [closed]; if it raises, the
    exception leaves the route as it is and the session stays registered. *)
Theorem close_route_outcome (env : oracle) w session_id l x :
  dict_get session_id (sessions (st w)) = Some l ->
  heap (st w) !! l = Some x ->
  run env (close_session session_id) w
    = match env (clock w) (ContextClose (context x)) with
      | Ok _ => (Ok closed_answer,
                 set_st (set_sessions (dict_del session_id (sessions (st w))) (st w))
                   (record (ContextClose (context x)) true w))
      | Exc e => (Exc e, record (ContextClose (context x)) false w)
      end /\
  forall id, id <> session_id ->
             dict_get id (dict_del session_id (sessions (st w))) = dict_get id (sessions (st w)).
Proof.
  intros Hl Hx. split; [|intros; by apply dict_get_del_ne].
  unfold_routes. run_through.
  destruct (env (clock w) (ContextClose (context x))) as [[]|e]; run_through; reflexivity.
Qed.

Lemma close_route_outcome_witness :
  let w := two_sessions in
  let env := failing (is_context_close 3%nat) target_closed calm in
  dict_get "s2" (sessions (st w)) = Some 1%nat /\
  heap (st w) !! 1%nat = Some (mkSession 3%nat 4%nat 0 [] (-1)) /\
  run env (close_session "s2") w = (Exc target_closed, record (ContextClose 3%nat) false w).
Proof.
  cbv zeta. do 2 (split; [reflexivity|]).
  exact (proj1 (close_route_outcome (failing (is_context_close 3%nat) target_closed calm)
                  two_sessions "s2" 1%nat (mkSession 3%nat 4%nat 0 [] (-1)) eq_refl eq_refl)).
Defined.

(** ** Frames on the WebSocket *)

(** X17: a frame that is a JSON object and names none of the eight
    commands, or names [navigate] without a truthy url, is dropped: the
    consumer calls nothing, writes nothing and goes on to the next frame. *)
Theorem ignored_frames_do_nothing (env : oracle) w websocket session page data :
  ignored data = true ->
  run env (dispatch websocket session page data) w = (Ok tt, w).
Proof.
  destruct data as [| | | | |items]; try discriminate. unfold ignored, dispatch, data_get.
  simpl. destruct (dict_get "type" items) as [[| | |t| |]|]; simpl; try reflexivity.
  destruct (String.eqb t "navigate"); simpl.
  - intros Hu. apply negb_true_iff in Hu. by rewrite Hu.
  - intros Hk. apply negb_true_iff in Hk. simpl in Hk.
    repeat match type of Hk with
           | (String.eqb t ?k || _) = false =>
               let H := fresh in apply orb_false_iff in Hk as [H Hk]; rewrite H; simpl
           end.
    reflexivity.
Qed.

Lemma ignored_frames_do_nothing_witness :
  ignored (JObj [("type", JStr "navigate"); ("url", JStr "")]) = true /\
  run calm (dispatch 9%nat 0%nat 2%nat (JObj [("type", JStr "navigate"); ("url", JStr "")]))
    (one_session ABC 1) = (Ok tt, one_session ABC 1).
Proof.
  split; [reflexivity|].
  exact (ignored_frames_do_nothing calm (one_session ABC 1) 9%nat 0%nat 2%nat
           (JObj [("type", JStr "navigate"); ("url", JStr "")]) eq_refl).
Defined.

(** X18: when the page refuses a [navigate] frame with an [Exception], the
    consumer sends one [error] frame that carries the text of the exception
    and leaves the history as it was; the outcome of the frame is the
    outcome of that send, so the loop goes on unless the send itself
    raises. *)
Theorem refused_navigation_is_reported (env : oracle) w websocket session page url e :
  truthy url = true ->
  is_Exception e = true ->
  env (clock w) (PageGoto page url "domcontentloaded" 30000) = Exc e ->
  run env (dispatch websocket session page (JObj [("type", JStr "navigate"); ("url", url)])) w
    = let sent := env (S (clock w)) (WsSendJson websocket (error_frame e)) in
      (match sent with Ok _ => Ok tt | Exc e' => Exc e' end,
       record (WsSendJson websocket (error_frame e)) (is_ok sent)
         (record (PageGoto page url "domcontentloaded" 30000) false w)).
Proof.
  intros Hu He Hg. unfold_routes. simpl. rewrite Hu. run_through.
  unfold error_frame.
  destruct (env (S (clock w)) (WsSendJson websocket _)) as [[]|e']; reflexivity.
Qed.

Lemma refused_navigation_is_reported_witness :
  let env := failing is_goto timeout_error calm in
  let w := one_session ABC 1 in
  truthy (JStr "D") = true /\
  is_Exception timeout_error = true /\
  env (clock w) (PageGoto 2%nat (JStr "D") "domcontentloaded" 30000) = Exc timeout_error /\
  run env (dispatch 9%nat 0%nat 2%nat (navigate_frame "D")) w
    = (Ok tt,
       record (WsSendJson 9%nat (error_frame timeout_error)) true
         (record (PageGoto 2%nat (JStr "D") "domcontentloaded" 30000) false w)).
Proof.
  cbv zeta. do 3 (split; [reflexivity|]).
  exact (refused_navigation_is_reported (failing is_goto timeout_error calm)
           (one_session ABC 1) 9%nat 0%nat 2%nat (JStr "D") timeout_error
           eq_refl eq_refl eq_refl).
Defined.

Lemma dispatch_captures_nothing websocket session page data :
  calls_only (fun o => negb (is_capture o)) (dispatch websocket session page data).
Proof. unfold_routes. reach. Qed.

Lemma stream_stopped_captures_nothing script websocket session page :
  calls_only (fun o => negb (is_capture o)) (stream script websocket session page false).
Proof.
  induction script as [|t script IH]; [exact I|].
  destruct t; cbn [stream]; [exact IH|].
  apply calls_only_bind.
  - apply calls_only_attempt. apply calls_only_bind.
    + unfold call. reach.
    + intros. apply dispatch_captures_nothing.
  - intros [a|e]; auto. destruct (is_WebSocketDisconnect e); exact I.
Qed.

(** X19: the screenshot producer does not recover.  Once one of its
    iterations has raised (the screenshot, the title or the send failed),
    no screenshot is taken for the rest of the connection, however many
    turns the producer and the consumer still get. *)
Theorem producer_stops_at_first_failure (env : oracle) w websocket session page script e :
  (run env (stream_iteration websocket page) w).1 = Exc e ->
  Forall (fun ev => is_capture (ev_op ev) = false)
    (new_events (run env (stream_iteration websocket page) w).2
       (run env (stream (Producer :: script) websocket session page true) w).2).
Proof.
  intros He. cbn [stream]. rewrite run_bind. unfold attempt. rewrite run_catch, run_bind.
  destruct (run env (stream_iteration websocket page) w) as [[a|e'] w1] eqn:Hrun;
    simpl in He; [discriminate|]. simpl.
  eapply Forall_impl.
  - apply run_calls_only, stream_stopped_captures_nothing.
  - simpl. intros ev Hev. by apply negb_true_iff.
Qed.

Lemma producer_stops_at_first_failure_witness :
  let env := sending (navigate_frame "D") (failing is_title target_closed calm) in
  let w := one_session ABC 1 in
  (run env (stream_iteration 9%nat 2%nat) w).1 = Exc target_closed /\
  Forall (fun ev => is_capture (ev_op ev) = false)
    (new_events (run env (stream_iteration 9%nat 2%nat) w).2
       (run env (stream [Producer; Consumer; Producer] 9%nat 0%nat 2%nat true) w).2).
Proof.
  cbv zeta. split; [reflexivity|].
  exact (producer_stops_at_first_failure
           (sending (navigate_frame "D") (failing is_title target_closed calm))
           (one_session ABC 1) 9%nat 0%nat 2%nat [Consumer; Producer] target_closed eq_refl).
Defined.



(** ** Errors of the routes *)







(** ** The suggestion endpoint *)

Section SuggestionsEndpoint.

Context (json_loads : string -> option json) (coerce : json -> option string)
        (EMERGENT_API_KEY : string).

Local Abbreviation get_search_suggestions :=
  (Search.get_search_suggestions json_loads coerce EMERGENT_API_KEY).

Lemma length_list_upto {A} (l : list A) limit :
  0 <= limit -> Z.of_nat (length (list_upto l limit)) <= limit.
Proof.
  intros H. rewrite list_upto_take by assumption. rewrite length_take. lia.
Qed.

Lemma length_accepted l limit ss :
  0 <= limit ->
  mapM (Search.str_element coerce) (list_upto l limit) = Some ss ->
  Z.of_nat (length ss) <= limit.
Proof.
  intros H Hm. apply length_mapM in Hm. rewrite <- Hm. by apply length_list_upto.
Qed.

(** X22: the endpoint answers every query.  Whatever the service does
    (the import fails, the call raises, the reply is no JSON, not a list,
    or a list of something else), the route returns a response that echoes
    the query and, for a [limit] that is not negative, holds at most
    [limit] suggestions; the only thing that leaves it is an exception that
    is not an [Exception] (a cancellation). *)
Theorem suggestions_always_answer (env : oracle) w q limit :
  match (run env (get_search_suggestions q limit) w).1 with
  | Ok r =>
      Search.query r = q /\
      (0 <= limit -> Z.of_nat (length (Search.suggestions r)) <= limit)
  | Exc e => is_Exception e = false
  end.
Proof.
  unfold Search.get_search_suggestions.
  destruct (String.eqb q "" || (Z.of_nat (String.length (strip q)) <? 2)).
  { simpl. split; [reflexivity|]. intros; simpl; lia. }
  unfold Search.get_ai_suggestions, except_Exception, call. simpl.
  destruct (env (clock w) ImportChat) as [[]|e] eqn:Hi; simpl.
  2: { destruct (is_Exception e) eqn:He; simpl; [|exact He].
       split; [reflexivity|]. by apply length_list_upto. }
  match goal with |- context [env ?n ?o] => destruct (env n o) as [message|e] eqn:Hc end; simpl.
  2: { destruct (is_Exception e) eqn:He; simpl; rewrite ?He; simpl; [|exact He].
       split; [reflexivity|]. by apply length_list_upto. }
  destruct (startswith_char (strip message) "[");
    [|destruct ((find_char (strip message) "[" >=? 0)
                && (rfind_char (strip message) "]" + 1 >? find_char (strip message) "["))].
  3: { simpl. destruct (mapM _ _) as [ss|] eqn:Hm; simpl.
       - split; [reflexivity|]. intros. by eapply (length_accepted [JStr q]).
       - split; [reflexivity|]. by apply length_list_upto. }
  all: unfold Search.loads;
    match goal with |- context [json_loads ?c] => destruct (json_loads c) as [[]|] end;
    simpl; try (split; [reflexivity|]; by apply length_list_upto);
    match goal with |- context [mapM ?f ?l] => destruct (mapM f l) eqn:Hm end; simpl;
    (split; [reflexivity|]); intros; first [by eapply length_accepted | by apply length_list_upto].
Qed.

(** X23: the suggestion route is independent of the browser: it writes
    nothing to the manager's state and calls nothing but the import of the
    client library and the service, the service at most once (a failed
    call is not retried). *)
Theorem suggestions_ask_the_service_once (env : oracle) w q limit :
  let w' := (run env (get_search_suggestions q limit) w).2 in
  st w' = st w /\
  Forall (fun ev => is_service (ev_op ev) = true) (new_events w w') /\
  (length (new_events w w') <= 2)%nat.
Proof.
  cbv zeta. unfold new_events, Search.get_search_suggestions.
  destruct (String.eqb q "" || (Z.of_nat (String.length (strip q)) <? 2)).
  { simpl. rewrite drop_all. simpl. repeat split; auto. }
  unfold Search.get_ai_suggestions, except_Exception, call. simpl.
  destruct (env (clock w) ImportChat) as [[]|e] eqn:Hi; simpl.
  2: { destruct (is_Exception e) eqn:He; simpl; rewrite drop_app_length; simpl;
         repeat split; auto. }
  match goal with |- context [env ?n ?o] => destruct (env n o) as [message|e] eqn:Hc end; simpl.
  2: { destruct (is_Exception e) eqn:He; simpl; rewrite ?He; simpl;
         rewrite <- app_assoc, drop_app_length; simpl; repeat split; auto. }
  destruct (startswith_char (strip message) "[");
    [|destruct ((find_char (strip message) "[" >=? 0)
                && (rfind_char (strip message) "]" + 1 >? find_char (strip message) "["))].
  3: { simpl. destruct (mapM _ _) as [ss|] eqn:Hm; simpl;
         rewrite <- app_assoc, drop_app_length; simpl; repeat split; auto. }
  all: unfold Search.loads;
    match goal with |- context [json_loads ?c] => destruct (json_loads c) as [[]|] end;
    simpl; try (rewrite <- app_assoc, drop_app_length; simpl; repeat split; auto; fail);
    match goal with |- context [mapM ?f ?l] => destruct (mapM f l) eqn:Hm end; simpl;
    rewrite <- app_assoc, drop_app_length; simpl; repeat split; auto.
Qed.

End SuggestionsEndpoint.
